(** * Steep parallax fragment shader ([shaders/psSteepParallax.glsl])

    A shallow embedding of the fragment shader of the steep parallax demo
    and the properties of its four stages: the height-field ray tracer
    ([parallaxTrace]), the normal reconstruction, the ambient-occlusion
    block and the self-shadow block of [main], and the final composite.

    GLSL [float] values are read as real numbers: every arithmetic
    operation is exact, so rounding, NaN and infinities are outside the
    model.  A division whose divisor is zero has the value Rocq's [/]
    gives it ([x / 0 = 0], so the zero vector normalizes to itself); a
    theorem whose conclusion would depend on such a quotient assumes the
    divisor to be nonzero, or says in its comment that it does not.  A
    [sampler2D] is an arbitrary function from texture coordinates to
    texels, which covers every filtering and addressing mode.  A local
    variable that the shader reads without having assigned it ([prevUV])
    is an extra argument of unknown value.  The [while] loop of
    [parallaxTrace] is run with fuel: [None] means that the fuel ran out
    before the loop condition became false.

    [parallaxTrace] is embedded a second time, in the module [Ext], on
    floats that are a real number, an infinity or NaN.  The properties
    that depend on what the unassigned [prevUV] holds when it is read, or
    on the zero divisor of a grazing view direction, are stated there. *)

From Stdlib Require Import Reals Lra Psatz RNsatz ZArith List Bool.
Import ListNotations.

Local Open Scope R_scope.

(* ================================================================== *)
(** ** GLSL scalars and built-in functions *)

(** Comparisons of the shader, as booleans. *)
Definition ltb (a b : R) : bool := if Rlt_dec a b then true else false.
Definition leb (a b : R) : bool := if Rle_dec a b then true else false.
Definition gtb (a b : R) : bool := ltb b a.

(** [mix(x, y, a)] is [x * (1 - a) + y * a] (GLSL 3.30, section 8.3). *)
Definition mix (x y a : R) : R := x * (1 - a) + y * a.

(** [clamp(x, lo, hi)] is [min(max(x, lo), hi)]. *)
Definition clamp (x lo hi : R) : R := Rmin (Rmax x lo) hi.

(** [float saturate(float x) { return clamp(x, 0.0, 1.0); }] *)
Definition saturate (x : R) : R := clamp x 0 1.

(** [float lerp(float a, float b, float t) { return a + t*(b - a); }] *)
Definition lerp (a b t : R) : R := a + t * (b - a).

(** [pow(x, y)]; the shader only raises non-negative bases to positive
    exponents. *)
Definition powf (x y : R) : R :=
  if Req_dec_T x 0 then 0 else Rpower x y.

(** [int(x)] truncates toward zero. *)
Definition int (x : R) : Z :=
  if Rle_dec 0 x then Int_part x else (- Int_part (- x))%Z.

(** [float(n)] for an [int]. *)
Definition float (n : Z) : R := IZR n.

(* ================================================================== *)
(** ** Vectors *)

Module V2.
Record t : Type := mk { x : R; y : R }.
Definition add (a b : t) : t := mk (x a + x b) (y a + y b).
Definition scale (a : t) (k : R) : t := mk (x a * k) (y a * k).
Definition div (a : t) (k : R) : t := mk (x a / k) (y a / k).
Definition neg (a : t) : t := mk (- x a) (- y a).
(** the swizzle [.yx] *)
Definition yx (a : t) : t := mk (y a) (x a).
(** component-wise [mix] with a scalar weight *)
Definition mix (a b : t) (w : R) : t :=
  mk (mix (x a) (x b) w) (mix (y a) (y b) w).
End V2.

Module V3.
Record t : Type := mk { x : R; y : R; z : R }.
Definition add (a b : t) : t := mk (x a + x b) (y a + y b) (z a + z b).
Definition scale (a : t) (k : R) : t := mk (x a * k) (y a * k) (z a * k).
Definition div (a : t) (k : R) : t := mk (x a / k) (y a / k) (z a / k).
(** component-wise product, GLSL's [*] on two vectors *)
Definition mul (a b : t) : t := mk (x a * x b) (y a * y b) (z a * z b).
Definition dot (a b : t) : R := x a * x b + y a * y b + z a * z b.
Definition length (a : t) : R := sqrt (dot a a).
(** [normalize(v)] is [v / length(v)] *)
Definition normalize (a : t) : t := div a (length a).
Definition mix (a b : t) (w : R) : t :=
  mk (mix (x a) (x b) w) (mix (y a) (y b) w) (mix (z a) (z b) w).
(** the swizzle [.yx] *)
Definition yx (a : t) : V2.t := V2.mk (y a) (x a).
(** a vector minus a scalar, component-wise *)
Definition sub_scalar (a : t) (k : R) : t := mk (x a - k) (y a - k) (z a - k).
(** the assignment [v.x = k] *)
Definition set_x (a : t) (k : R) : t := mk k (y a) (z a).
End V3.

Module V4.
Record t : Type := mk { r : R; g : R; b : R; a : R }.
(** the swizzle [.rgb] *)
Definition rgb (c : t) : V3.t := V3.mk (r c) (g c) (b c).
(** the constructor [vec4(rgb, a)] *)
Definition of_rgb (c : V3.t) (alpha : R) : t :=
  mk (V3.x c) (V3.y c) (V3.z c) alpha.
End V4.

(** A [sampler2D]: what [texture] returns at each coordinate, and the
    size [textureSize(s, 0)] reports. *)
Record sampler2D : Type := Sampler {
  texture : V2.t -> V4.t;
  textureSize : Z * Z
}.

(* ================================================================== *)
(** ** Constants of the shader *)

Definition diffuseCoeff : R := 7 / 10.
Definition baseSpecularCoeff : R := 6 / 10.
Definition aoMin : R := 8 / 100.
Definition shadowMin : R := 1 / 10.
Definition AO_SAMPLES : Z := 8.
Definition AO_RADIUS : R := 12 / 1000.

(* ================================================================== *)
(** ** [parallaxTrace] *)

(** The local variables the search loop reads and writes. *)
Record TraceState : Type := MkTrace {
  heightRem : R;
  prevUV : V2.t;
  prevSample : R;
  curUV : V2.t;
  curSample : R
}.

Section ParallaxTrace.
Variable heightMap : sampler2D.
Variable uv : V2.t.
Variable viewDir : V3.t.
Variable bumpScale : R.
(** what the declaration [vec2 prevUV;] leaves in the variable *)
Variable prevUV_undef : V2.t.

(** [float numSteps = mix(72.0, 36.0, abs(viewDir.z));] *)
Definition numSteps : R := mix 72 36 (Rabs (V3.z viewDir)).

Definition steepScale : R := 1.

(** [vec2 deltaUV = -viewDir.yx * bumpScale * steepScale
                    / (abs(viewDir.z) * numSteps);] *)
Definition deltaUV : V2.t :=
  V2.div (V2.scale (V2.scale (V2.neg (V3.yx viewDir)) bumpScale) steepScale)
         (Rabs (V3.z viewDir) * numSteps).

(** [float deltaH = 1.0 / numSteps;] *)
Definition deltaH : R := 1 / numSteps.

(** The state on entry to the loop. *)
Definition traceInit : TraceState :=
  let curUV := uv in
  let heightRem := 1 in
  let curSample := V4.r (texture heightMap curUV) in
  MkTrace heightRem prevUV_undef heightRem curUV curSample.

(** [heightRem > 0.0 && curSample < heightRem] *)
Definition traceCond (s : TraceState) : bool :=
  gtb (heightRem s) 0 && ltb (curSample s) (heightRem s).

(** One execution of the loop body. *)
Definition traceBody (s : TraceState) : TraceState :=
  let heightRem' := heightRem s - deltaH in
  let prevUV' := curUV s in
  let prevSample' := curSample s in
  let curUV' := V2.add (curUV s) deltaUV in
  let curSample' := V4.r (texture heightMap curUV') in
  MkTrace heightRem' prevUV' prevSample' curUV' curSample'.

(** The [while] loop; [None] when [fuel] iterations did not make the
    condition false. *)
Fixpoint traceLoop (fuel : nat) (s : TraceState) : option TraceState :=
  if traceCond s then
    match fuel with
    | O => None
    | S fuel' => traceLoop fuel' (traceBody s)
    end
  else Some s.

(** The number of times the body runs, counted with the same fuel. *)
Fixpoint traceIterations (fuel : nat) (s : TraceState) : option nat :=
  if traceCond s then
    match fuel with
    | O => None
    | S fuel' => option_map S (traceIterations fuel' (traceBody s))
    end
  else Some O.

(** [float afterDepth = curSample - heightRem;] *)
Definition afterDepth (s : TraceState) : R := curSample s - heightRem s.

(** [float beforeDepth = prevSample - (heightRem + deltaH);] *)
Definition beforeDepth (s : TraceState) : R :=
  prevSample s - (heightRem s + deltaH).

(** [float t = clamp(beforeDepth / (beforeDepth + afterDepth), 0.0, 1.0);] *)
Definition traceWeight (s : TraceState) : R :=
  clamp (beforeDepth s / (beforeDepth s + afterDepth s)) 0 1.

(** [vec2 finalUV = mix(prevUV, curUV, t);] *)
Definition traceFinish (s : TraceState) : V2.t :=
  V2.mix (prevUV s) (curUV s) (traceWeight s).

Definition parallaxTrace (fuel : nat) : option V2.t :=
  option_map traceFinish (traceLoop fuel traceInit).
End ParallaxTrace.

(* ================================================================== *)
(** ** [computeHeightNormalTS] *)

Definition computeHeightNormalTS
    (heightMap : sampler2D) (uv texelSize : V2.t) (bumpScale : R) : V3.t :=
  let hc := V4.r (texture heightMap uv) in
  let hr := V4.r (texture heightMap (V2.add uv (V2.mk (V2.x texelSize) 0))) in
  let hu := V4.r (texture heightMap (V2.add uv (V2.mk 0 (V2.y texelSize)))) in
  let dx := (hr - hc) * bumpScale in
  let dy := (hu - hc) * bumpScale in
  V3.normalize (V3.mk (- dx) (- dy) 1).

(* ================================================================== *)
(** ** [main] *)

(** The values [i] of [for (int i = lo; i < hi; ++i)]. *)
Definition int_range (lo hi : Z) : list Z :=
  map (fun k => (lo + Z.of_nat k)%Z) (seq 0 (Z.to_nat (hi - lo))).

Module Main.
Section Locals.
(** inputs from the vertex shader *)
Variable FragUV : V2.t.
Variable tanEyeVec : V3.t.
Variable tanLightVec : V3.t.
(** uniforms *)
Variable diffuseTexture : sampler2D.
Variable heightMap : sampler2D.
Variable normalMap : sampler2D.
Variable selfShadowTest : R.
Variable bumpScale : R.

Definition lightColor : V3.t := V3.mk 1 1 (65 / 100).
Definition ambientBase : V3.t :=
  V3.scale (V3.mk (4 / 10) (4 / 10) (6 / 10)) (14 / 10).

Definition tanEyeN : V3.t := V3.normalize tanEyeVec.

(** Everything below is computed from the UV [parallaxTrace] returned. *)
Variable finalUV : V2.t.

Definition albedo : V3.t := V4.rgb (texture diffuseTexture finalUV).

(** [vec2 texelSize = 1.0 / vec2(textureSize(heightMap, 0));] *)
Definition texelSize : V2.t :=
  V2.mk (1 / float (fst (textureSize heightMap)))
        (1 / float (snd (textureSize heightMap))).

Definition nH : V3.t :=
  computeHeightNormalTS heightMap finalUV texelSize bumpScale.

(** [normalize(texture(normalMap, uv).rgb * 2.0 - 1.0)] *)
Definition decodeNormal (uv : V2.t) : V3.t :=
  V3.normalize
    (V3.sub_scalar (V3.scale (V4.rgb (texture normalMap uv)) 2) 1).

Definition nM : V3.t := decodeNormal finalUV.

(** [vec3 N = normalize(mix(nM, nH, 0.5));] *)
Definition N : V3.t := V3.normalize (V3.mix nM nH (1 / 2)).

(** [vec3 tanLightN = normalize(tanLightVec); tanLightN.x = -tanLightN.x;] *)
Definition tanLightN : V3.t :=
  let l := V3.normalize tanLightVec in
  V3.set_x l (- V3.x l).

Definition NdotL : R := Rmax (V3.dot N tanLightN) 0.

Definition halfVec : V3.t := V3.normalize (V3.add tanLightN tanEyeN).
Definition NdotH : R := Rmax (V3.dot N halfVec) 0.

Definition hVal : R := V4.r (texture heightMap finalUV).
Definition boost : R := lerp (9 / 10) (25 / 10) (powf hVal (25 / 10)).
Definition expo : R := lerp 32 96 hVal.
Definition specular : R := powf NdotH expo * baseSpecularCoeff * boost.

(** *** Ambient occlusion *)

(** What iteration [i] of the sampling loop adds to [sumAO]; [N] is the
  blended normal the block reads. *)
Definition aoSample (N : V3.t) (i : Z) : R :=
  let ang := 62831853 / 10000000 * float i / float AO_SAMPLES in
  let dir := V2.mk (cos ang) (sin ang) in
  let uvS := V2.add finalUV (V2.scale dir AO_RADIUS) in
  let neighborH := V4.r (texture heightMap uvS) in
  let rawAO := saturate (hVal - neighborH + 3 / 100) in
  let nS := decodeNormal uvS in
  rawAO * (4 / 10 + 6 / 10 * Rmax (V3.dot N nS) 0).

Definition sumAO (N : V3.t) : R :=
  fold_left (fun acc i => acc + aoSample N i) (int_range 0 AO_SAMPLES) 0.

(** The value the block leaves in [ao]. *)
Definition aoBlock (N : V3.t) : R :=
  let ao := sumAO N / float AO_SAMPLES in
  let flatten := Rabs (V3.z N) in
  let ao := lerp ao 1 flatten in
  lerp aoMin 1 ao.

Definition ao : R := aoBlock N.

(** *** Self-shadowing *)

Definition numShadowSteps : Z := int (lerp 48 12 (Rabs (V3.z tanLightN))).
(** [float steepScale = 1.0; // MATCH parallax!] *)
Definition steepScale : R := 1.
Definition shadowDeltaH : R := 1 / float numShadowSteps.
Definition shadowDeltaUV : V2.t :=
  V2.div (V2.scale (V2.scale (V3.yx tanLightN) bumpScale) steepScale)
         (Rabs (V3.z tanLightN) * float numShadowSteps).

(** The march [for (int i = 0; i < numShadowSteps && shadowHeight < 1.0; ++i)]
    with [remaining = numShadowSteps - i] iterations left; the result is
    [inShadow]. *)
Fixpoint shadowMarch (remaining : nat) (shadowHeight : R) (shadowUV : V2.t)
    : bool :=
  match remaining with
  | O => false
  | S remaining' =>
      if ltb shadowHeight 1 then
        let testHeight := V4.r (texture heightMap shadowUV) in
        if gtb testHeight shadowHeight then true
        else shadowMarch remaining' (shadowHeight + shadowDeltaH)
                         (V2.add shadowUV shadowDeltaUV)
      else false
  end.

(** [inShadow] of the kernel tap [(dx, dy)]. *)
Definition pcfTap (dx dy : Z) : bool :=
  let pcfOffset := V2.scale (V2.mk (float dx) (float dy)) (15 / 10000) in
  let shadowUV := V2.add finalUV pcfOffset in
  let shadowHeight :=
    V4.r (texture heightMap finalUV) + shadowDeltaH * (1 / 10) in
  shadowMarch (Z.to_nat numShadowSteps) shadowHeight shadowUV.

Definition pcfRings : Z := 3.

(** The body of the two kernel loops, on the pair
    [(shadowSum, pcfSamples)]. *)
Definition pcfBody (acc : R * Z) (dx dy : Z) : R * Z :=
  (fst acc + (if pcfTap dx dy then shadowMin else 1), (snd acc + 1)%Z).

(** Both loops, entered with [shadowSum = 0.0] and [pcfSamples = 4]. *)
Definition pcfLoops : R * Z :=
  fold_left
    (fun acc dx =>
       fold_left (fun acc dy => pcfBody acc dx dy)
                 (int_range (- pcfRings) (pcfRings + 1)) acc)
    (int_range (- pcfRings) (pcfRings + 1))
    (0, 4%Z).

Definition shadow : R :=
  if gtb selfShadowTest 0 && gtb NdotL 0 then
    fst pcfLoops / float (snd pcfLoops)
  else 1.

(** *** Final composite *)

(** [albedo * (ambientBase * ao + lightColor * diffuseCoeff * NdotL * shadow)
     + lightColor * specular * shadow] *)
Definition composite (albedo : V3.t) (ao NdotL shadow specular : R) : V3.t :=
  V3.add
    (V3.mul albedo
       (V3.add (V3.scale ambientBase ao)
               (V3.scale (V3.scale (V3.scale lightColor diffuseCoeff) NdotL)
                         shadow)))
    (V3.scale (V3.scale lightColor specular) shadow).

Definition color : V3.t := composite albedo ao NdotL shadow specular.

Definition fragColor : V4.t := V4.of_rgb color 1.
End Locals.

(** [main]: the colour written to [fragColor]; [None] when the search
    loop of [parallaxTrace] did not finish within [fuel] iterations. *)
Definition main (fuel : nat)
    (FragUV : V2.t) (tanEyeVec tanLightVec : V3.t)
    (diffuseTexture heightMap normalMap : sampler2D)
    (selfShadowTest bumpScale : R) (prevUV_undef : V2.t) : option V4.t :=
  match parallaxTrace heightMap FragUV (tanEyeN tanEyeVec) bumpScale
                      prevUV_undef fuel with
  | Some finalUV =>
      Some (fragColor tanEyeVec tanLightVec diffuseTexture heightMap normalMap
                      selfShadowTest bumpScale finalUV)
  | None => None
  end.
End Main.

(* ================================================================== *)
(** ** Concrete inputs used in the examples *)

(** A texture with the same texel everywhere. *)
Definition constSampler (c : V4.t) : sampler2D :=
  Sampler (fun _ => c) (1%Z, 1%Z).

(** A grey texel of the given height. *)
Definition grey (h : R) : V4.t := V4.mk h h h 1.

(** The normal map that encodes [(0, 0, 1)] everywhere. *)
Definition flatNormalMap : sampler2D :=
  constSampler (V4.mk (1 / 2) (1 / 2) 1 1).

Definition origin : V2.t := V2.mk 0 0.
Definition faceOn : V3.t := V3.mk 0 0 1.

(** A 1024 x 1024 height map, sampled texel by texel, that is 1.0
    everywhere except for one texel of height 0.5 in the corner at the
    origin. *)
Definition in_pit (p : V2.t) : bool :=
  leb 0 (V2.x p) && ltb (V2.x p) (1 / 1024)
  && leb 0 (V2.y p) && ltb (V2.y p) (1 / 1024).

Definition pitHeightMap : sampler2D :=
  Sampler (fun p => if in_pit p then grey (1 / 2) else grey 1)
          (1024%Z, 1024%Z).

(** The centre of that texel. *)
Definition pitCentre : V2.t := V2.mk (1 / 2048) (1 / 2048).

(** A unit light direction 53 degrees above the surface. *)
Definition lightFromSide : V3.t := V3.mk (3 / 5) 0 (4 / 5).

Definition white : V3.t := V3.mk 1 1 1.

(* ================================================================== *)
(** ** The composite, term by term *)

Definition ambientTerm (albedo : V3.t) : V3.t :=
  V3.mul albedo Main.ambientBase.

(** The Lambertian diffuse term, [albedo * lightColor * diffuseCoeff * NdotL]. *)
Definition diffuseTerm (albedo : V3.t) (NdotL : R) : V3.t :=
  V3.mul albedo (V3.scale (V3.scale Main.lightColor diffuseCoeff) NdotL).

Definition specularTerm (specular : R) : V3.t :=
  V3.scale Main.lightColor specular.

(** The composite as the specification words it: shadow on the diffuse
    and specular terms, ambient occlusion on the diffuse term and not on
    the ambient term. *)
Definition composite_ao_on_diffuse
    (albedo : V3.t) (ao NdotL shadow specular : R) : V3.t :=
  V3.add (ambientTerm albedo)
    (V3.add (V3.scale (V3.scale (diffuseTerm albedo NdotL) shadow) ao)
            (V3.scale (specularTerm specular) shadow)).

(* ================================================================== *)
(** ** Invariants and further code *)

(** The facts the loop keeps about its state after [k] iterations from
    the entry state. *)
Definition trace_after
    (heightMap : sampler2D) (uv : V2.t) (viewDir : V3.t) (bumpScale : R)
    (k : nat) (s : TraceState) : Prop :=
  heightRem s = 1 - INR k * deltaH viewDir
  /\ curUV s = V2.add uv (V2.scale (deltaUV viewDir bumpScale) (INR k))
  /\ curSample s = V4.r (texture heightMap (curUV s))
  /\ ((1 <= k)%nat ->
      prevUV s = V2.add uv (V2.scale (deltaUV viewDir bumpScale)
                                     (INR (k - 1)))
      /\ prevSample s = V4.r (texture heightMap (prevUV s))
      /\ prevSample s < heightRem s + deltaH viewDir).

(* ================================================================== *)
(** ** The basic parallax shader ([psParallax.glsl]) *)

Module Basic.
Section Locals.
Variable FragUV : V2.t.
Variable tanEyeVec : V3.t.
Variable tanLightVec : V3.t.
Variable diffuseTexture : sampler2D.
Variable heightMap : sampler2D.
Variable normalMap : sampler2D.
Variable bumpScale : R.
Variable parralax : R.

Definition diffuseCoeff : R := 7 / 10.
Definition specularCoeff : R := 6 / 10.

(** [float height = texture(heightMap, FragUV).r;
     height = height * 2*bumpScale - bumpScale;] *)
Definition height : R :=
  let height := V4.r (texture heightMap FragUV) in
  height * 2 * bumpScale - bumpScale.

Definition tanEyeVecN : V3.t := V3.normalize tanEyeVec.

(** [if (parralax > 0) texUV = FragUV + (tanEyeVecN.yx * height);
     else texUV = FragUV;] *)
Definition texUV : V2.t :=
  if gtb parralax 0 then V2.add FragUV (V2.scale (V3.yx tanEyeVecN) height)
  else FragUV.

(** [vec3 normal = (texture(normalMap, texUV).rgb-0.5)*2;
     normal = normalize(normal);] *)
Definition normal : V3.t :=
  let normal :=
    V3.scale (V3.sub_scalar (V4.rgb (texture normalMap texUV)) (1 / 2)) 2 in
  V3.normalize normal.

Definition tanLightVecN : V3.t :=
  let l := V3.normalize tanLightVec in
  V3.set_x l (- V3.x l).

Definition diffuse : R := Rmax (V3.dot tanLightVecN normal) 0 * diffuseCoeff.

Definition tanHalf : V3.t := V3.normalize (V3.add tanLightVecN tanEyeVecN).

Definition specular : R :=
  let specular := Rmax (V3.dot tanHalf normal) 0 in
  powf specular 64 * specularCoeff.

Definition ambient : V3.t :=
  V3.scale (V3.mk (4 / 10) (4 / 10) (6 / 10)) (14 / 10).

Definition texColor : V3.t := V4.rgb (texture diffuseTexture texUV).

(** [vec4(texColor*(ambient + vec3(1.5, 1.5, 1.0)*0.7*diffuse)
          + vec3(1.5, 1.5, 1.0)*0.7*specular, 1.0f)] *)
Definition fragColor : V4.t :=
  V4.of_rgb
    (V3.add
       (V3.mul texColor
          (V3.add ambient
             (V3.scale (V3.scale (V3.mk (15 / 10) (15 / 10) 1) (7 / 10))
                       diffuse)))
       (V3.scale (V3.scale (V3.mk (15 / 10) (15 / 10) 1) (7 / 10)) specular))
    1.
End Locals.
End Basic.

(* ================================================================== *)
(** ** Host code: matrices, clamping, viewports, uniforms *)

(** A C++ [float[16]] (or [float[3]]): the value at each index. *)
Definition farray : Type := nat -> R.

(** The assignment [a[i] = v]. *)
Definition upd (a : farray) (i : nat) (v : R) : farray :=
  fun j => if Nat.eqb j i then v else a j.

(** The array with the listed elements, as a C++ initializer. *)
Definition of_list (l : list R) : farray := fun i => nth i l 0.

(** [template<typename T> constexpr T clamp(T v, T lo, T hi)
     { return (v < lo) ? lo : (v > hi) ? hi : v; }] at [float]. *)
Definition hostClamp (v lo hi : R) : R :=
  if ltb v lo then lo else if gtb v hi then hi else v.

(** [multiply4x4(A, B, out)]; [out0] is what [out] held before the call. *)
Definition multiply4x4 (A B out0 : farray) : farray :=
  fold_left
    (fun out r =>
       fold_left
         (fun out c =>
            let sum :=
              fold_left
                (fun sum k => sum + A (k * 4 + r)%nat * B (c * 4 + k)%nat)
                (seq 0 4) 0 in
            upd out (c * 4 + r) sum)
         (seq 0 4) out)
    (seq 0 4) out0.

(** [invertRigid(M, out)]; the last three assignments read the elements
    of [out] written just before. *)
Definition invertRigid (M out0 : farray) : farray :=
  let out := out0 in
  let out := upd out 0 (M 0%nat) in
  let out := upd out 1 (M 4%nat) in
  let out := upd out 2 (M 8%nat) in
  let out := upd out 3 0 in
  let out := upd out 4 (M 1%nat) in
  let out := upd out 5 (M 5%nat) in
  let out := upd out 6 (M 9%nat) in
  let out := upd out 7 0 in
  let out := upd out 8 (M 2%nat) in
  let out := upd out 9 (M 6%nat) in
  let out := upd out 10 (M 10%nat) in
  let out := upd out 11 0 in
  let out :=
    upd out 12
      (- (out 0%nat * M 12%nat + out 4%nat * M 13%nat + out 8%nat * M 14%nat))
  in
  let out :=
    upd out 13
      (- (out 1%nat * M 12%nat + out 5%nat * M 13%nat + out 9%nat * M 14%nat))
  in
  let out :=
    upd out 14
      (- (out 2%nat * M 12%nat + out 6%nat * M 13%nat
          + out 10%nat * M 14%nat))
  in
  upd out 15 1.

(** The 4 x 4 identity, column-major. *)
Definition identity4 : farray :=
  of_list [1; 0; 0; 0;  0; 1; 0; 0;  0; 0; 1; 0;  0; 0; 0; 1].

(** [Handle_Display] clamps the light position in place:
    [position[0]] and [position[1]] to [-10, 10], [position[2]] to
    [2, 20]. *)
Definition clampLight (position : farray) : farray :=
  let position := upd position 0 (hostClamp (position 0%nat) (-10) 10) in
  let position := upd position 1 (hostClamp (position 1%nat) (-10) 10) in
  upd position 2 (hostClamp (position 2%nat) 2 20).

(** The split screen of [Handle_Display]:
    [int halfW = screenWidth / 2;
     int squareW = (screenHeight < halfW ? screenHeight : halfW);
     int leftX = halfW - squareW;  int rightX = halfW;]
    Each side draws into the square viewport [(x, 0, squareW, squareW)]. *)
Definition halfW (screenWidth : Z) : Z := Z.quot screenWidth 2.

Definition squareW (screenWidth screenHeight : Z) : Z :=
  if Z.ltb screenHeight (halfW screenWidth) then screenHeight
  else halfW screenWidth.

Definition leftX (screenWidth screenHeight : Z) : Z :=
  (halfW screenWidth - squareW screenWidth screenHeight)%Z.

Definition rightX (screenWidth : Z) : Z := halfW screenWidth.

(** What [bindUniforms] uploads for the two uniforms the steep shader
    reads: [features.bumpy ? 0.125f : 0.05f] and
    [features.selfShadowing ? 1.0f : 0.0f]. *)
Definition bumpScaleUniform (bumpy : bool) : R :=
  if bumpy then 125 / 1000 else 5 / 100.

Definition selfShadowUniform (selfShadowing : bool) : R :=
  if selfShadowing then 1 else 0.

(** A rigid transform, column-major: bottom row [(0, 0, 0, 1)] and an
    orthonormal 3 x 3 block (columns and rows). *)
Definition rigid (M : farray) : Prop :=
  M 3%nat = 0 /\ M 7%nat = 0 /\ M 11%nat = 0 /\ M 15%nat = 1
  /\ M 0%nat * M 0%nat + M 1%nat * M 1%nat + M 2%nat * M 2%nat = 1
  /\ M 4%nat * M 4%nat + M 5%nat * M 5%nat + M 6%nat * M 6%nat = 1
  /\ M 8%nat * M 8%nat + M 9%nat * M 9%nat + M 10%nat * M 10%nat = 1
  /\ M 0%nat * M 4%nat + M 1%nat * M 5%nat + M 2%nat * M 6%nat = 0
  /\ M 0%nat * M 8%nat + M 1%nat * M 9%nat + M 2%nat * M 10%nat = 0
  /\ M 4%nat * M 8%nat + M 5%nat * M 9%nat + M 6%nat * M 10%nat = 0
  /\ M 0%nat * M 0%nat + M 4%nat * M 4%nat + M 8%nat * M 8%nat = 1
  /\ M 1%nat * M 1%nat + M 5%nat * M 5%nat + M 9%nat * M 9%nat = 1
  /\ M 2%nat * M 2%nat + M 6%nat * M 6%nat + M 10%nat * M 10%nat = 1
  /\ M 0%nat * M 1%nat + M 4%nat * M 5%nat + M 8%nat * M 9%nat = 0
  /\ M 0%nat * M 2%nat + M 4%nat * M 6%nat + M 8%nat * M 10%nat = 0
  /\ M 1%nat * M 2%nat + M 5%nat * M 6%nat + M 9%nat * M 10%nat = 0.

(** The model-view matrix [gluLookAt(0, 0, 35, 0, 0, 0, 0, 1, 0)] loads:
    a translation by [(0, 0, -35)]. *)
Definition lookAtMatrix : farray :=
  of_list [1; 0; 0; 0;  0; 1; 0; 0;  0; 0; 1; 0;  0; 0; -35; 1].

(* ================================================================== *)
(** ** The vertex shader ([shaders/vsParallax.glsl]) *)

(** [cross(a, b)] *)
Definition cross (a b : V3.t) : V3.t :=
  V3.mk (V3.y a * V3.z b - V3.z a * V3.y b)
        (V3.z a * V3.x b - V3.x a * V3.z b)
        (V3.x a * V3.y b - V3.y a * V3.x b).

(** A [mat4] uniform is the 16 floats [glUniformMatrix4fv] uploads,
    column-major; [M * v] for a [vec4]. *)
Definition mat4_mul_vec (M : farray) (v : V4.t) : V4.t :=
  let row (r : nat) :=
    M r * V4.r v + M (4 + r)%nat * V4.g v + M (8 + r)%nat * V4.b v
    + M (12 + r)%nat * V4.a v in
  V4.mk (row 0%nat) (row 1%nat) (row 2%nat) (row 3%nat).

(** [mat3(c0, c1, c2) * v] *)
Definition mat3_mul_vec (c0 c1 c2 v : V3.t) : V3.t :=
  V3.add (V3.add (V3.scale c0 (V3.x v)) (V3.scale c1 (V3.y v)))
         (V3.scale c2 (V3.z v)).

(** [v /= v.w] followed by [.xyz] *)
Definition dehomogenize (v : V4.t) : V3.t :=
  V3.mk (V4.r v / V4.a v) (V4.g v / V4.a v) (V4.b v / V4.a v).

Definition V3_sub (a b : V3.t) : V3.t :=
  V3.mk (V3.x a - V3.x b) (V3.y a - V3.y b) (V3.z a - V3.z b).

Module Vertex.
Section Locals.
(** vertex attributes *)
Variable Position : V4.t.
Variable UV : V2.t.
Variable Normal : V3.t.
(** uniforms *)
Variable ModelViewProj : farray.
Variable ModelViewI : farray.
Variable lightPosition : V3.t.

Definition FragUV : V2.t := UV.
Definition gl_Position : V4.t := mat4_mul_vec ModelViewProj Position.

(** [vec4 eyePosition = ModelViewI * vec4(0,0,0,1);
     eyePosition /= eyePosition.w;] and its [.xyz] *)
Definition eyePosition : V3.t :=
  dehomogenize (mat4_mul_vec ModelViewI (V4.mk 0 0 0 1)).

Definition objectLightPosition : V3.t :=
  dehomogenize
    (mat4_mul_vec ModelViewI
       (V4.mk (V3.x lightPosition) (V3.y lightPosition)
              (V3.z lightPosition) 1)).

Definition tangent : V3.t := V3.mk 1 0 0.
Definition normal : V3.t := V3.normalize Normal.
Definition binormal : V3.t := cross normal tangent.

Definition eyeVec : V3.t :=
  V3.normalize (V3_sub eyePosition (V4.rgb Position)).
Definition lightVec : V3.t :=
  V3.normalize (V3_sub objectLightPosition (V4.rgb Position)).

(** [mat3 TBN = mat3(tangent, binormal, normal);
     tanEyeVec = TBN * eyeVec;  tanLightVec = TBN * lightVec;] *)
Definition tanEyeVec : V3.t := mat3_mul_vec tangent binormal normal eyeVec.
Definition tanLightVec : V3.t :=
  mat3_mul_vec tangent binormal normal lightVec.
End Locals.
End Vertex.

(* ================================================================== *)
(** ** [parallaxTrace] on floats with infinities and NaN *)

(** The same function once more, on values that are a real number, an
    infinity or NaN.  Arithmetic on real numbers stays exact; where an
    operand is exceptional or a divisor is zero the result is the one
    IEEE 754 prescribes.  There is one zero, the positive one: the zeros
    that occur as divisors below are [abs(z) * numSteps] and a sum of two
    numbers that cancel, both [+0] in IEEE arithmetic.  A texture fetch
    returns a real number whatever the coordinate is. *)
Module Ext.

Inductive xfloat : Type :=
  | Fin (r : R)
  | PInf
  | NInf
  | NaN.

Definition neg (a : xfloat) : xfloat :=
  match a with
  | Fin r => Fin (- r)
  | PInf => NInf
  | NInf => PInf
  | NaN => NaN
  end.

Definition add (a b : xfloat) : xfloat :=
  match a, b with
  | NaN, _ | _, NaN => NaN
  | Fin x, Fin y => Fin (x + y)
  | PInf, NInf | NInf, PInf => NaN
  | PInf, _ | _, PInf => PInf
  | NInf, _ | _, NInf => NInf
  end.

Definition sub (a b : xfloat) : xfloat := add a (neg b).

(** An infinity times the real [x]: the sign of [x] decides, and
    [inf * 0] is NaN. *)
Definition scale_inf (positive : bool) (x : R) : xfloat :=
  if Rlt_dec 0 x then (if positive then PInf else NInf)
  else if Rlt_dec x 0 then (if positive then NInf else PInf)
  else NaN.

Definition mul (a b : xfloat) : xfloat :=
  match a, b with
  | NaN, _ | _, NaN => NaN
  | Fin x, Fin y => Fin (x * y)
  | Fin x, PInf | PInf, Fin x => scale_inf true x
  | Fin x, NInf | NInf, Fin x => scale_inf false x
  | PInf, PInf | NInf, NInf => PInf
  | PInf, NInf | NInf, PInf => NInf
  end.

Definition div (a b : xfloat) : xfloat :=
  match a, b with
  | NaN, _ | _, NaN => NaN
  | Fin x, Fin y =>
      if Req_dec_T y 0 then
        (if Rlt_dec 0 x then PInf else if Rlt_dec x 0 then NInf else NaN)
      else Fin (x / y)
  | Fin _, PInf | Fin _, NInf => Fin 0
  | PInf, Fin y => if Rlt_dec y 0 then NInf else PInf
  | NInf, Fin y => if Rlt_dec y 0 then PInf else NInf
  | PInf, PInf | PInf, NInf | NInf, PInf | NInf, NInf => NaN
  end.

(** [a < b]; false as soon as an operand is NaN. *)
Definition lt (a b : xfloat) : bool :=
  match a, b with
  | NaN, _ | _, NaN => false
  | Fin x, Fin y => ltb x y
  | NInf, NInf => false
  | NInf, _ => true
  | _, NInf => false
  | PInf, _ => false
  | Fin _, PInf => true
  end.

Definition abs (a : xfloat) : xfloat :=
  match a with
  | Fin r => Fin (Rabs r)
  | PInf | NInf => PInf
  | NaN => NaN
  end.

(** [max(x, y)] returns [y] if [x < y], otherwise [x]; [min(x, y)]
    returns [y] if [y < x], otherwise [x] (GLSL 3.30, section 8.3). *)
Definition max (x y : xfloat) : xfloat := if lt x y then y else x.
Definition min (x y : xfloat) : xfloat := if lt y x then y else x.
Definition clamp (x lo hi : xfloat) : xfloat := min (max x lo) hi.
Definition mix (x y a : xfloat) : xfloat :=
  add (mul x (sub (Fin 1) a)) (mul y a).

Record xvec2 : Type := mk2 { x2 : xfloat; y2 : xfloat }.
Record xvec3 : Type := mk3 { x3 : xfloat; y3 : xfloat; z3 : xfloat }.

Definition add2 (a b : xvec2) : xvec2 :=
  mk2 (add (x2 a) (x2 b)) (add (y2 a) (y2 b)).
Definition mix2 (a b : xvec2) (w : xfloat) : xvec2 :=
  mk2 (mix (x2 a) (x2 b) w) (mix (y2 a) (y2 b) w).

(** A vector of real numbers as a vector of floats. *)
Definition of_V2 (p : V2.t) : xvec2 := mk2 (Fin (V2.x p)) (Fin (V2.y p)).
Definition of_V3 (v : V3.t) : xvec3 :=
  mk3 (Fin (V3.x v)) (Fin (V3.y v)) (Fin (V3.z v)).

Record TraceState : Type := MkTrace {
  heightRem : xfloat;
  prevUV : xvec2;
  prevSample : xfloat;
  curUV : xvec2;
  curSample : xfloat
}.

Section ParallaxTrace.
Variable heightMap : xvec2 -> R.
Variable uv : xvec2.
Variable viewDir : xvec3.
Variable bumpScale : xfloat.
(** what the declaration [vec2 prevUV;] leaves in the variable: any two
    floats, NaN and the infinities included *)
Variable prevUV_undef : xvec2.

Definition numSteps : xfloat := mix (Fin 72) (Fin 36) (abs (z3 viewDir)).

Definition steepScale : xfloat := Fin 1.

(** [-viewDir.yx * bumpScale * steepScale / (abs(viewDir.z) * numSteps)] *)
Definition deltaUV : xvec2 :=
  mk2 (div (mul (mul (neg (y3 viewDir)) bumpScale) steepScale)
           (mul (abs (z3 viewDir)) numSteps))
      (div (mul (mul (neg (x3 viewDir)) bumpScale) steepScale)
           (mul (abs (z3 viewDir)) numSteps)).

Definition deltaH : xfloat := div (Fin 1) numSteps.

Definition traceInit : TraceState :=
  let curUV := uv in
  let heightRem := Fin 1 in
  let curSample := Fin (heightMap curUV) in
  MkTrace heightRem prevUV_undef heightRem curUV curSample.

(** [heightRem > 0.0 && curSample < heightRem] *)
Definition traceCond (s : TraceState) : bool :=
  lt (Fin 0) (heightRem s) && lt (curSample s) (heightRem s).

Definition traceBody (s : TraceState) : TraceState :=
  let heightRem' := sub (heightRem s) deltaH in
  let prevUV' := curUV s in
  let prevSample' := curSample s in
  let curUV' := add2 (curUV s) deltaUV in
  let curSample' := Fin (heightMap curUV') in
  MkTrace heightRem' prevUV' prevSample' curUV' curSample'.

Fixpoint traceLoop (fuel : nat) (s : TraceState) : option TraceState :=
  if traceCond s then
    match fuel with
    | O => None
    | S fuel' => traceLoop fuel' (traceBody s)
    end
  else Some s.

Definition afterDepth (s : TraceState) : xfloat :=
  sub (curSample s) (heightRem s).

Definition beforeDepth (s : TraceState) : xfloat :=
  sub (prevSample s) (add (heightRem s) deltaH).

Definition traceWeight (s : TraceState) : xfloat :=
  clamp (div (beforeDepth s) (add (beforeDepth s) (afterDepth s)))
        (Fin 0) (Fin 1).

Definition traceFinish (s : TraceState) : xvec2 :=
  mix2 (prevUV s) (curUV s) (traceWeight s).

Definition parallaxTrace (fuel : nat) : option xvec2 :=
  option_map traceFinish (traceLoop fuel traceInit).
End ParallaxTrace.

(** The fact the loop keeps about the three scalars of its state, for a
    height step [dH]: they are real numbers and the previous sample is
    below the previous ray height. *)
Definition scalars_ok (dH : R) (s : TraceState) : Prop :=
  exists h p c : R,
    heightRem s = Fin h /\ prevSample s = Fin p /\ curSample s = Fin c
    /\ p < h + dH.

Definition finite2 (p : xvec2) : Prop := exists q : V2.t, p = of_V2 q.
End Ext.

(** The height map that is 1.0 everywhere, and the flat one of height
    0.99, for the float model. *)
Definition whiteHeight : Ext.xvec2 -> R := fun _ => 1.
Definition nearTop : Ext.xvec2 -> R := fun _ => 99 / 100.


(* ================================================================== *)
(** * Properties *)

(** ** Scalars *)

Lemma ltb_true (a b : R) : ltb a b = true <-> a < b.
Proof. unfold ltb; destruct (Rlt_dec a b); split; intros; congruence || auto. Qed.

Lemma ltb_false (a b : R) : ltb a b = false <-> b <= a.
Proof.
  unfold ltb; destruct (Rlt_dec a b); split; intros; try congruence; lra.
Qed.

Lemma gtb_true (a b : R) : gtb a b = true <-> b < a.
Proof. apply ltb_true. Qed.

Lemma gtb_false (a b : R) : gtb a b = false <-> a <= b.
Proof. apply ltb_false. Qed.

Lemma clamp_range (x lo hi : R) : lo <= hi -> lo <= clamp x lo hi <= hi.
Proof.
  intros H; unfold clamp, Rmin, Rmax.
  destruct (Rle_dec x lo); destruct (Rle_dec _ hi); lra.
Qed.

Lemma clamp_above (x lo hi : R) : lo <= hi -> hi <= x -> clamp x lo hi = hi.
Proof.
  intros H1 H2; unfold clamp, Rmin, Rmax.
  destruct (Rle_dec x lo); destruct (Rle_dec _ hi); lra.
Qed.

Lemma saturate_range (x : R) : 0 <= saturate x <= 1.
Proof. apply clamp_range; lra. Qed.

Lemma mix_same (x a : R) : mix x x a = x.
Proof. unfold mix; ring. Qed.


Lemma lerp_range (a t : R) : a <= 1 -> 0 <= t <= 1 -> a <= lerp a 1 t <= 1.
Proof. intros Ha Ht; unfold lerp; nra. Qed.

Lemma V2_mix_same (p : V2.t) (w : R) : V2.mix p p w = p.
Proof. destruct p; unfold V2.mix; simpl; now rewrite !mix_same. Qed.


(** ** The step count of [parallaxTrace] *)

Lemma numSteps_eq (v : V3.t) : numSteps v = 72 - 36 * Rabs (V3.z v).
Proof. unfold numSteps, mix; ring. Qed.

Lemma unit_z_le_1 (v : V3.t) : V3.dot v v = 1 -> Rabs (V3.z v) <= 1.
Proof.
  unfold V3.dot; intros H.
  apply Rabs_le. nra.
Qed.

Lemma numSteps_range (v : V3.t) :
  Rabs (V3.z v) <= 1 -> 36 <= numSteps v <= 72.
Proof.
  intros H; rewrite numSteps_eq.
  pose proof (Rabs_pos (V3.z v)); lra.
Qed.

Lemma deltaH_pos (v : V3.t) : Rabs (V3.z v) <= 1 -> 0 < deltaH v.
Proof.
  intros H; unfold deltaH.
  apply Rdiv_lt_0_compat; [lra | pose proof (numSteps_range v H); lra].
Qed.

(** C8. The step count at the face-on view [(0,0,1)] is strictly lower
    than at the near-grazing view [(1,0,z)] for every [z] with [|z| < 1];
    more generally [mix(72, 36, |view.z|)] strictly decreases as
    [|view.z|] grows. *)
Theorem numSteps_face_on_lt_grazing (z : R) (Hz : Rabs z < 1) :
  numSteps (V3.mk 0 0 1) < numSteps (V3.mk 1 0 z)
  /\ (forall v w : V3.t,
        Rabs (V3.z v) < Rabs (V3.z w) -> numSteps w < numSteps v).
Proof.
  split.
  - rewrite !numSteps_eq; simpl. rewrite Rabs_R1. lra.
  - intros v w H. rewrite !numSteps_eq. lra.
Qed.

Lemma numSteps_face_on_lt_grazing_witness :
  Rabs (1 / 100) < 1
  /\ numSteps (V3.mk 0 0 1) < numSteps (V3.mk 1 0 (1 / 100)).
Proof.
  assert (H : Rabs (1 / 100) < 1) by (rewrite Rabs_right; lra).
  split; [exact H | exact (proj1 (numSteps_face_on_lt_grazing (1 / 100) H))].
Defined.

(** ** The search loop of [parallaxTrace] *)

Lemma traceCond_true (s : TraceState) :
  traceCond s = true <-> 0 < heightRem s /\ curSample s < heightRem s.
Proof.
  unfold traceCond. rewrite andb_true_iff, gtb_true, ltb_true. tauto.
Qed.

Lemma traceCond_false (s : TraceState) :
  traceCond s = false <-> heightRem s <= 0 \/ heightRem s <= curSample s.
Proof.
  unfold traceCond. rewrite andb_false_iff, gtb_false, ltb_false. tauto.
Qed.

Section TraceFacts.
Variable heightMap : sampler2D.
Variable uv : V2.t.
Variable viewDir : V3.t.
Variable bumpScale : R.

Let body := traceBody heightMap viewDir bumpScale.
Let loop := traceLoop heightMap viewDir bumpScale.
Let iterations := traceIterations heightMap viewDir bumpScale.

Lemma traceBody_heightRem (s : TraceState) :
  heightRem (body s) = heightRem s - deltaH viewDir.
Proof. reflexivity. Qed.

(** The loop and the iteration counter agree on whether the fuel
    suffices. *)
Lemma traceIterations_loop (fuel : nat) (s : TraceState) :
  loop fuel s = None <-> iterations fuel s = None.
Proof.
  revert s; induction fuel as [|fuel IH]; intros s; simpl;
    destruct (traceCond s); try tauto; try (split; discriminate).
  rewrite IH. fold iterations body.
  destruct (iterations fuel (body s)); simpl; split; congruence.
Qed.

(** If [k] more steps of [deltaH] bring [heightRem] to zero or below, the
    loop ends within [k] iterations, whatever the samples are. *)
Lemma traceLoop_bounded (k : nat) :
  0 < deltaH viewDir ->
  forall (fuel : nat) (s : TraceState),
    (k <= fuel)%nat ->
    heightRem s <= INR k * deltaH viewDir ->
    exists n s',
      (n <= k)%nat /\ iterations fuel s = Some n /\ loop fuel s = Some s'
      /\ loop k s = Some s'.
Proof.
  intros Hd. induction k as [|k IH]; intros fuel s Hf Hh.
  - assert (Hc : traceCond s = false).
    { apply traceCond_false. left. simpl in Hh. lra. }
    exists O, s. destruct fuel; simpl; rewrite Hc; auto.
  - destruct (traceCond s) eqn:Hc.
    + destruct fuel as [|fuel]; [inversion Hf|].
      destruct (IH fuel (body s)) as (n & s' & Hn & Hi & Hl & Hk).
      * apply le_S_n, Hf.
      * rewrite traceBody_heightRem. rewrite S_INR in Hh. lra.
      * exists (S n), s'. simpl. rewrite Hc.
        fold iterations loop body. rewrite Hi, Hl, Hk.
        repeat split; auto. apply le_n_S, Hn.
    + exists O, s. destruct fuel; simpl; rewrite Hc; repeat split; auto;
        apply Nat.le_0_l.
Qed.
End TraceFacts.

(** From the entry state, 73 steps of [deltaH] are always enough. *)
Lemma traceLoop_from_init
    (heightMap : sampler2D) (uv : V2.t) (viewDir : V3.t) (bumpScale : R)
    (prevUV_undef : V2.t) (fuel : nat) :
  Rabs (V3.z viewDir) <= 1 ->
  (73 <= fuel)%nat ->
  exists n s',
    (n <= 73)%nat
    /\ traceIterations heightMap viewDir bumpScale fuel
         (traceInit heightMap uv prevUV_undef) = Some n
    /\ traceLoop heightMap viewDir bumpScale fuel
         (traceInit heightMap uv prevUV_undef) = Some s'
    /\ traceLoop heightMap viewDir bumpScale 73
         (traceInit heightMap uv prevUV_undef) = Some s'.
Proof.
  intros Hz Hf.
  pose proof (numSteps_range viewDir Hz) as Hn.
  pose proof (deltaH_pos viewDir Hz) as Hd.
  apply traceLoop_bounded; auto.
  unfold deltaH. replace (INR 73) with 73 by (simpl; ring).
  simpl. apply Rmult_le_reg_r with (r := numSteps viewDir); [lra|].
  field_simplify; lra.
Qed.

(** C9. For a unit view direction the search loop terminates: [numSteps]
    lies in [36, 72], every iteration lowers [heightRem] by
    [deltaH = 1/numSteps > 0], so the body runs at most 73 times and
    [parallaxTrace] returns a UV as soon as it is given fuel for 73
    iterations (and the same UV for any larger fuel).  The nonzero
    z-component the claim asks for is not needed. *)
Theorem parallaxTrace_terminates
    (heightMap : sampler2D) (uv : V2.t) (viewDir : V3.t) (bumpScale : R)
    (prevUV_undef : V2.t)
    (Hunit : V3.dot viewDir viewDir = 1) :
  36 <= numSteps viewDir <= 72
  /\ deltaH viewDir = 1 / numSteps viewDir
  /\ 0 < deltaH viewDir
  /\ heightRem (traceInit heightMap uv prevUV_undef) = 1
  /\ (forall s,
        heightRem (traceBody heightMap viewDir bumpScale s)
        = heightRem s - deltaH viewDir)
  /\ (exists n,
        (n <= 73)%nat
        /\ traceIterations heightMap viewDir bumpScale 73
             (traceInit heightMap uv prevUV_undef) = Some n)
  /\ (exists finalUV,
        forall fuel, (73 <= fuel)%nat ->
          parallaxTrace heightMap uv viewDir bumpScale prevUV_undef fuel
          = Some finalUV).
Proof.
  pose proof (unit_z_le_1 viewDir Hunit) as Hz.
  pose proof (numSteps_range viewDir Hz) as Hn.
  pose proof (deltaH_pos viewDir Hz) as Hd.
  repeat split; try tauto; try reflexivity.
  - destruct (traceLoop_from_init heightMap uv viewDir bumpScale prevUV_undef
                73 Hz (le_n _)) as (n & s' & Hle & Hi & _).
    exists n; auto.
  - destruct (traceLoop_from_init heightMap uv viewDir bumpScale prevUV_undef
                73 Hz (le_n _)) as (n & s' & _ & _ & _ & Hk).
    exists (traceFinish viewDir s'). intros fuel Hf.
    destruct (traceLoop_from_init heightMap uv viewDir bumpScale prevUV_undef
                fuel Hz Hf) as (n' & s'' & _ & _ & Hl & Hk').
    unfold parallaxTrace. rewrite Hl. simpl. congruence.
Qed.

Lemma parallaxTrace_terminates_witness :
  V3.dot faceOn faceOn = 1
  /\ exists finalUV,
       forall fuel, (73 <= fuel)%nat ->
         parallaxTrace (constSampler (grey 0)) origin faceOn 1 origin fuel
         = Some finalUV.
Proof.
  assert (H : V3.dot faceOn faceOn = 1) by (unfold V3.dot; simpl; ring).
  split; [exact H|].
  exact (proj2 (proj2 (proj2 (proj2 (proj2 (proj2
    (parallaxTrace_terminates (constSampler (grey 0)) origin faceOn 1 origin
       H))))))).
Defined.

(** ** Zero bump scale *)

Lemma deltaUV_zero_bumpScale (viewDir : V3.t) :
  deltaUV viewDir 0 = V2.mk 0 0.
Proof.
  unfold deltaUV, V2.div, V2.scale, V2.neg, V3.yx; simpl.
  f_equal; unfold Rdiv; ring.
Qed.

Lemma V2_add_zero (p : V2.t) : V2.add p (V2.mk 0 0) = p.
Proof. destruct p; unfold V2.add; simpl; f_equal; ring. Qed.

(** With a zero step the loop never leaves the starting UV: on exit either
    no iteration ran, or both [prevUV] and [curUV] are the starting UV. *)
Lemma traceLoop_zero_delta
    (heightMap : sampler2D) (uv : V2.t) (viewDir : V3.t) (bumpScale : R) :
  deltaUV viewDir bumpScale = V2.mk 0 0 ->
  forall (fuel : nat) (s s' : TraceState),
    traceLoop heightMap viewDir bumpScale fuel s = Some s' ->
    curUV s = uv ->
    s' = s \/ (prevUV s' = uv /\ curUV s' = uv).
Proof.
  intros Hd. induction fuel as [|fuel IH]; intros s s' Hl Hs; simpl in Hl;
    destruct (traceCond s) eqn:Hc; try discriminate;
    try (inversion Hl; now left).
  assert (Hb : curUV (traceBody heightMap viewDir bumpScale s) = uv).
  { simpl. rewrite Hd, Hs. apply V2_add_zero. }
  destruct (IH _ _ Hl Hb) as [-> | H]; [|now right].
  right. split; [exact Hs | exact Hb].
Qed.

(** When the loop does not move and the first sample is below 1.0, so
    that the body runs and assigns [prevUV], [parallaxTrace] returns the
    UV it was given. *)
Lemma parallaxTrace_zero_delta
    (heightMap : sampler2D) (uv : V2.t) (viewDir : V3.t) (bumpScale : R)
    (prevUV_undef : V2.t) (fuel : nat) :
  deltaUV viewDir bumpScale = V2.mk 0 0 ->
  Rabs (V3.z viewDir) <= 1 ->
  V4.r (texture heightMap uv) < 1 ->
  (73 <= fuel)%nat ->
  parallaxTrace heightMap uv viewDir bumpScale prevUV_undef fuel = Some uv.
Proof.
  intros Hdelta Hz1 Hlt Hfuel.
  destruct (traceLoop_from_init heightMap uv viewDir bumpScale prevUV_undef
              fuel Hz1 Hfuel) as (n & s' & _ & _ & Hl & _).
  unfold parallaxTrace. rewrite Hl. simpl. f_equal.
  assert (Hc : traceCond (traceInit heightMap uv prevUV_undef) = true).
  { apply traceCond_true. simpl. lra. }
  destruct fuel as [|fuel]; [inversion Hfuel|].
  simpl in Hl. rewrite Hc in Hl.
  assert (Hb : curUV (traceBody heightMap viewDir bumpScale
                        (traceInit heightMap uv prevUV_undef)) = uv).
  { simpl. rewrite Hdelta. apply V2_add_zero. }
  assert (Hends : prevUV s' = uv /\ curUV s' = uv).
  { destruct (traceLoop_zero_delta heightMap uv viewDir bumpScale Hdelta
                fuel _ _ Hl Hb) as [-> | H]; [|exact H].
    split; [reflexivity | exact Hb]. }
  destruct Hends as [Hp Hcur].
  unfold traceFinish. rewrite Hp, Hcur. apply V2_mix_same.
Qed.

(** ** The self-shadow switch *)

(** C3. When self-shadowing is disabled ([selfShadowTest <= 0]) or the
    surface does not face the light ([dot(N, tanLightN) <= 0]) the shadow
    factor is exactly 1, whatever the height field, UV, directions and
    bump scale are. *)
Theorem shadow_disabled_or_unlit
    (tanLightVec : V3.t) (heightMap normalMap : sampler2D)
    (selfShadowTest bumpScale : R) (finalUV : V2.t)
    (H : selfShadowTest <= 0
         \/ V3.dot (Main.N heightMap normalMap bumpScale finalUV)
                   (Main.tanLightN tanLightVec) <= 0) :
  Main.shadow tanLightVec heightMap normalMap selfShadowTest bumpScale finalUV
  = 1.
Proof.
  unfold Main.shadow.
  destruct H as [H | H].
  - assert (Hg : gtb selfShadowTest 0 = false) by (apply gtb_false; lra).
    now rewrite Hg.
  - assert (Hg : gtb (Main.NdotL tanLightVec heightMap normalMap bumpScale
                        finalUV) 0 = false).
    { apply gtb_false. unfold Main.NdotL. rewrite Rmax_right; lra. }
    rewrite Hg. now rewrite andb_false_r.
Qed.

Lemma shadow_disabled_or_unlit_witness :
  Main.shadow (V3.mk 3 4 5) (constSampler (grey (1 / 2))) flatNormalMap
              0 1 origin = 1.
Proof.
  apply shadow_disabled_or_unlit. left. apply Rle_refl.
Defined.

(** ** Unit vectors *)

Lemma dot_self_nonneg (v : V3.t) : 0 <= V3.dot v v.
Proof. unfold V3.dot; nra. Qed.

Lemma length_pos (v : V3.t) : V3.dot v v <> 0 -> 0 < V3.length v.
Proof.
  intros H. unfold V3.length. apply sqrt_lt_R0.
  pose proof (dot_self_nonneg v); lra.
Qed.

Lemma length_sqr (v : V3.t) : V3.length v * V3.length v = V3.dot v v.
Proof. unfold V3.length. apply sqrt_sqrt, dot_self_nonneg. Qed.

Lemma normalize_unit (v : V3.t) :
  V3.dot v v <> 0 -> V3.dot (V3.normalize v) (V3.normalize v) = 1.
Proof.
  intros H. pose proof (length_pos v H) as HL.
  pose proof (length_sqr v) as Hs.
  unfold V3.normalize, V3.div. unfold V3.dot at 1. simpl.
  unfold V3.dot in Hs.
  replace (V3.x v / V3.length v * (V3.x v / V3.length v) +
           V3.y v / V3.length v * (V3.y v / V3.length v) +
           V3.z v / V3.length v * (V3.z v / V3.length v))
    with ((V3.x v * V3.x v + V3.y v * V3.y v + V3.z v * V3.z v)
          / (V3.length v * V3.length v)) by (field; lra).
  rewrite Hs. field. rewrite <- Hs.
  intros H0. apply H. unfold V3.dot. rewrite <- Hs. exact H0.
Qed.

Lemma normalize_norm_le_1 (v : V3.t) :
  V3.dot (V3.normalize v) (V3.normalize v) <= 1.
Proof.
  destruct (Req_dec (V3.dot v v) 0) as [H0 | Hn].
  - assert (Hx : V3.x v = 0) by (unfold V3.dot in H0; nra).
    assert (Hy : V3.y v = 0) by (unfold V3.dot in H0; nra).
    assert (Hz : V3.z v = 0) by (unfold V3.dot in H0; nra).
    unfold V3.normalize, V3.div, V3.dot; simpl.
    rewrite Hx, Hy, Hz. unfold Rdiv. rewrite !Rmult_0_l. lra.
  - rewrite normalize_unit; auto. lra.
Qed.

Lemma dot_le_1 (a b : V3.t) :
  V3.dot a a = 1 -> V3.dot b b <= 1 -> V3.dot a b <= 1.
Proof.
  unfold V3.dot. intros Ha Hb.
  pose proof (Rle_0_sqr (V3.x a - V3.x b)) as H1.
  pose proof (Rle_0_sqr (V3.y a - V3.y b)) as H2.
  pose proof (Rle_0_sqr (V3.z a - V3.z b)) as H3.
  unfold Rsqr in H1, H2, H3. lra.
Qed.

(** ** Ambient occlusion *)

Lemma aoSample_range
    (heightMap normalMap : sampler2D) (finalUV : V2.t) (N : V3.t) (i : Z) :
  V3.dot N N = 1 ->
  0 <= Main.aoSample heightMap normalMap finalUV N i <= 1.
Proof.
  intros HN. unfold Main.aoSample.
  set (uvS := V2.add finalUV _).
  set (raw := saturate _).
  pose proof (saturate_range (Main.hVal heightMap finalUV
                              - V4.r (texture heightMap uvS) + 3 / 100)) as Hr.
  fold raw in Hr.
  assert (Hd : V3.dot N (Main.decodeNormal normalMap uvS) <= 1).
  { apply dot_le_1; auto. apply normalize_norm_le_1. }
  set (d := V3.dot N (Main.decodeNormal normalMap uvS)) in *.
  assert (Hm : 0 <= Rmax d 0 <= 1).
  { unfold Rmax; destruct (Rle_dec d 0); lra. }
  nra.
Qed.

(** A sum of terms in [0, 1] lies between its start and its start plus
    the number of terms. *)
Lemma fold_sum_range (f : Z -> R) (l : list Z) (acc : R) :
  (forall i, 0 <= f i <= 1) ->
  acc <= fold_left (fun a i => a + f i) l acc <= acc + INR (length l).
Proof.
  intros Hf. revert acc. induction l as [|i l IH]; intros acc.
  - simpl; lra.
  - cbn [fold_left length]. rewrite S_INR.
    specialize (IH (acc + f i)). specialize (Hf i). lra.
Qed.

Lemma ao_bound_of_unit
    (heightMap normalMap : sampler2D) (finalUV : V2.t) (N : V3.t) :
  V3.dot N N = 1 ->
  aoMin <= Main.aoBlock heightMap normalMap finalUV N <= 1.
Proof.
  intros HN.
  unfold Main.aoBlock.
  assert (Hs : 0 <= Main.sumAO heightMap normalMap finalUV N
                    / float AO_SAMPLES <= 1).
  { unfold Main.sumAO.
    pose proof (fold_sum_range
                  (Main.aoSample heightMap normalMap finalUV N)
                  (int_range 0 AO_SAMPLES) 0
                  (fun i => aoSample_range heightMap normalMap finalUV N i HN))
      as Hf.
    replace (INR (length (int_range 0 AO_SAMPLES))) with 8 in Hf
      by (simpl; ring).
    change (float AO_SAMPLES) with 8. lra. }
  assert (Hf : 0 <= Rabs (V3.z N) <= 1).
  { split; [apply Rabs_pos | apply unit_z_le_1, HN]. }
  set (a := Main.sumAO heightMap normalMap finalUV N / float AO_SAMPLES) in *.
  assert (Hl : 0 <= lerp a 1 (Rabs (V3.z N)) <= 1).
  { pose proof (lerp_range a (Rabs (V3.z N))). lra. }
  pose proof (lerp_range aoMin (lerp a 1 (Rabs (V3.z N)))).
  unfold aoMin in *. lra.
Qed.

(** C7. For every height field, normal map and UV, and every unit
    blended normal [N], the ambient-occlusion factor the AO block
    computes lies in [aoMin, 1], with [aoMin = 0.08].  (A normal-map
    texel that decodes to the zero vector gives a neighbour normal of
    length zero here; every other texel gives a unit one.) *)
Theorem ao_within_floor
    (heightMap normalMap : sampler2D) (finalUV : V2.t) (N : V3.t)
    (HN : V3.dot N N = 1) :
  aoMin = 8 / 100
  /\ aoMin <= Main.aoBlock heightMap normalMap finalUV N <= 1.
Proof.
  split; [reflexivity | now apply ao_bound_of_unit].
Qed.

Lemma ao_within_floor_witness :
  aoMin <= Main.aoBlock (constSampler (grey (1 / 2))) flatNormalMap origin
                        faceOn <= 1.
Proof.
  apply (ao_within_floor (constSampler (grey (1 / 2))) flatNormalMap origin
                         faceOn).
  unfold V3.dot; simpl; ring.
Defined.

(** The normal [main] blends is a unit vector unless the two normals
    cancel, so the bound holds for the [ao] of [main] as well. *)
Lemma main_ao_within_floor
    (heightMap normalMap : sampler2D) (bumpScale : R) (finalUV : V2.t) :
  let s := V3.mix (Main.nM normalMap finalUV)
                  (Main.nH heightMap bumpScale finalUV) (1 / 2) in
  V3.dot s s <> 0 ->
  aoMin <= Main.ao heightMap normalMap bumpScale finalUV <= 1.
Proof.
  intros s Hs. unfold Main.ao.
  apply ao_bound_of_unit. unfold Main.N. now apply normalize_unit.
Qed.

(** ** The blended normal *)

Lemma nonzero_dot (v : V3.t) : v <> V3.mk 0 0 0 -> V3.dot v v <> 0.
Proof.
  intros Hv H0. apply Hv. destruct v as [a b c].
  unfold V3.dot in H0; simpl in H0.
  assert (a = 0) by nra. assert (b = 0) by nra. assert (c = 0) by nra.
  now subst.
Qed.

Lemma mix_half (a b : R) : mix a b (1 / 2) = (a + b) * (1 / 2).
Proof. unfold mix; field. Qed.

Lemma length_mix_half (a b : V3.t) :
  V3.length (V3.mix a b (1 / 2)) = 1 / 2 * V3.length (V3.add a b).
Proof.
  unfold V3.length.
  replace (V3.dot (V3.mix a b (1 / 2)) (V3.mix a b (1 / 2)))
    with ((1 / 2) * (1 / 2) * V3.dot (V3.add a b) (V3.add a b)).
  - rewrite sqrt_mult_alt by lra. rewrite sqrt_square by lra. reflexivity.
  - unfold V3.dot, V3.mix, V3.add; simpl. rewrite !mix_half. ring.
Qed.

(** Normalizing the 50/50 mix of two vectors is normalizing their sum. *)
Lemma normalize_mix_half (a b : V3.t) :
  V3.add a b <> V3.mk 0 0 0 ->
  V3.normalize (V3.mix a b (1 / 2)) = V3.normalize (V3.add a b).
Proof.
  intros Hs. pose proof (length_pos _ (nonzero_dot _ Hs)) as HL.
  unfold V3.normalize. rewrite length_mix_half.
  unfold V3.div, V3.mix, V3.add in *; simpl in *. rewrite !mix_half.
  f_equal; field; lra.
Qed.

(** C6. Whenever the normal-map normal [nM] and the height-derivative
    normal [nH] at the final UV do not cancel, the shading normal [N] of
    [main], the re-normalized 50/50 mix, equals [normalize(nM + nH)]. *)
Theorem blended_normal_is_normalized_sum
    (heightMap normalMap : sampler2D) (bumpScale : R) (finalUV : V2.t)
    (Hsum : V3.add (Main.nM normalMap finalUV)
                   (Main.nH heightMap bumpScale finalUV) <> V3.mk 0 0 0) :
  Main.N heightMap normalMap bumpScale finalUV
  = V3.normalize (V3.add (Main.nM normalMap finalUV)
                         (Main.nH heightMap bumpScale finalUV)).
Proof.
  unfold Main.N. now apply normalize_mix_half.
Qed.

Lemma normalize_z_pos (v : V3.t) : 0 < V3.z v -> 0 < V3.z (V3.normalize v).
Proof.
  intros Hz.
  assert (Hd : V3.dot v v <> 0).
  { unfold V3.dot. nra. }
  pose proof (length_pos v Hd). unfold V3.normalize, V3.div; simpl.
  now apply Rdiv_lt_0_compat.
Qed.

Lemma blended_normal_is_normalized_sum_witness :
  Main.N (constSampler (grey (1 / 2))) flatNormalMap 1 origin
  = V3.normalize
      (V3.add (Main.nM flatNormalMap origin)
              (Main.nH (constSampler (grey (1 / 2))) 1 origin)).
Proof.
  apply blended_normal_is_normalized_sum.
  intros H.
  assert (Hz : V3.z (V3.add (Main.nM flatNormalMap origin)
                            (Main.nH (constSampler (grey (1 / 2))) 1 origin))
               = 0) by (rewrite H; reflexivity).
  assert (H1 : 0 < V3.z (Main.nM flatNormalMap origin)).
  { apply normalize_z_pos. simpl. lra. }
  assert (H2 : 0 < V3.z (Main.nH (constSampler (grey (1 / 2))) 1 origin)).
  { apply normalize_z_pos. simpl. lra. }
  unfold V3.add in Hz; simpl in Hz. simpl in H1, H2. lra.
Defined.

(** ** The final composite *)

(** C2, as stated, fails: with a white albedo, no direct light and
    [ao = 0] the shader outputs black, where a composite that left the
    ambient term out of the occlusion would output the ambient colour;
    and changing [ao] alone changes the ambient-only colour. *)
Lemma composite_ao_on_diffuse_counterexample :
  Main.composite white 0 0 1 0 = V3.mk 0 0 0
  /\ composite_ao_on_diffuse white 0 0 1 0 = V3.mk (56 / 100) (56 / 100) (84 / 100)
  /\ Main.composite white 0 0 1 0 <> composite_ao_on_diffuse white 0 0 1 0
  /\ Main.composite white 0 0 1 0 <> Main.composite white 1 0 1 0.
Proof.
  assert (H1 : Main.composite white 0 0 1 0 = V3.mk 0 0 0).
  { unfold Main.composite, V3.add, V3.mul, V3.scale; simpl. f_equal; field. }
  assert (H2 : composite_ao_on_diffuse white 0 0 1 0
               = V3.mk (56 / 100) (56 / 100) (84 / 100)).
  { unfold composite_ao_on_diffuse, ambientTerm, diffuseTerm, specularTerm,
      V3.add, V3.mul, V3.scale; simpl. f_equal; field. }
  assert (H3 : Main.composite white 1 0 1 0
               = V3.mk (56 / 100) (56 / 100) (84 / 100)).
  { unfold Main.composite, V3.add, V3.mul, V3.scale; simpl. f_equal; field. }
  rewrite H1, H2, H3.
  repeat split; auto; intros H; injection H; intros; lra.
Qed.

(** C2, amended. The colour is the ambient term times the AO factor,
    plus the Lambertian diffuse term times the shadow factor, plus the
    specular term times the shadow factor: the shadow factor multiplies
    the diffuse and the specular term, and the AO factor multiplies the
    ambient term only. *)
Theorem composite_shadow_and_ao
    (albedo : V3.t) (ao NdotL shadow specular : R) :
  Main.composite albedo ao NdotL shadow specular
  = V3.add (V3.scale (ambientTerm albedo) ao)
      (V3.add (V3.scale (diffuseTerm albedo NdotL) shadow)
              (V3.scale (specularTerm specular) shadow)).
Proof.
  unfold Main.composite, ambientTerm, diffuseTerm, specularTerm,
    V3.add, V3.mul, V3.scale; simpl.
  f_equal; ring.
Qed.

(** ** The self-shadow kernel *)

Section Kernel.
Variable tanLightVec : V3.t.
Variable heightMap : sampler2D.
Variable bumpScale : R.
Variable finalUV : V2.t.

Let tap := Main.pcfTap tanLightVec heightMap bumpScale finalUV.
Let body := Main.pcfBody tanLightVec heightMap bumpScale finalUV.

(** Bounds on what one tap adds to [shadowSum]. *)
Variables lo hi : R.
Hypothesis tap_bounds :
  forall dx dy, lo <= (if tap dx dy then shadowMin else 1) <= hi.

Lemma pcf_inner_loop (dx : Z) (cols : list Z) (acc : R * Z) :
  let acc' := fold_left (fun a dy => body a dx dy) cols acc in
  snd acc' = (snd acc + Z.of_nat (length cols))%Z
  /\ fst acc + INR (length cols) * lo <= fst acc'
     <= fst acc + INR (length cols) * hi.
Proof.
  revert acc. induction cols as [|dy cols IH]; intros acc.
  - simpl. split; [ring | lra].
  - cbn [fold_left length]. cbv zeta in IH |- *.
    destruct (IH (body acc dx dy)) as [Hs Hf]. rewrite Hs.
    unfold body, Main.pcfBody in *. cbn [fst snd] in *.
    fold tap in Hf |- *. pose proof (tap_bounds dx dy) as Ht.
    rewrite S_INR. split; [lia | lra].
Qed.

Lemma pcf_outer_loop (rows cols : list Z) (acc : R * Z) :
  let acc' :=
    fold_left (fun a dx => fold_left (fun a dy => body a dx dy) cols a)
              rows acc in
  snd acc' = (snd acc + Z.of_nat (length rows * length cols))%Z
  /\ fst acc + INR (length rows * length cols) * lo <= fst acc'
     <= fst acc + INR (length rows * length cols) * hi.
Proof.
  revert acc. induction rows as [|dx rows IH]; intros acc.
  - simpl. split; [ring | lra].
  - cbn [fold_left length]. cbv zeta in IH |- *.
    destruct (IH (fold_left (fun a dy => body a dx dy) cols acc)) as [Hs Hf].
    destruct (pcf_inner_loop dx cols acc) as [Hs' Hf'].
    rewrite Hs, Hs'.
    replace (S (length rows) * length cols)%nat
      with (length cols + length rows * length cols)%nat by reflexivity.
    rewrite plus_INR. split; [lia | lra].
Qed.

(** The two loops visit 49 taps and leave [pcfSamples = 4 + 49]. *)
Lemma pcfLoops_bounds :
  snd (Main.pcfLoops tanLightVec heightMap bumpScale finalUV) = 53%Z
  /\ 49 * lo <= fst (Main.pcfLoops tanLightVec heightMap bumpScale finalUV)
     <= 49 * hi.
Proof.
  unfold Main.pcfLoops. fold body.
  destruct (pcf_outer_loop (int_range (- Main.pcfRings) (Main.pcfRings + 1))
              (int_range (- Main.pcfRings) (Main.pcfRings + 1)) (0, 4%Z))
    as [Hs Hf].
  cbv zeta in Hs, Hf. rewrite Hs. cbn [fst snd] in *.
  replace (INR (length (int_range (- Main.pcfRings) (Main.pcfRings + 1))
                * length (int_range (- Main.pcfRings) (Main.pcfRings + 1))))
    with 49 in Hf by (simpl; ring).
  split; [reflexivity | lra].
Qed.
End Kernel.

(** Whenever the block runs, the factor is at most 49/53 and at least
    [49 * shadowMin / 53]. *)
Lemma shadow_range
    (tanLightVec : V3.t) (heightMap normalMap : sampler2D)
    (selfShadowTest bumpScale : R) (finalUV : V2.t) :
  49 * shadowMin / 53
  <= Main.shadow tanLightVec heightMap normalMap selfShadowTest bumpScale
                 finalUV
  <= 1.
Proof.
  unfold Main.shadow.
  destruct (gtb selfShadowTest 0 && gtb _ 0).
  - destruct (pcfLoops_bounds tanLightVec heightMap bumpScale finalUV
                shadowMin 1) as [Hs Hf].
    { intros dx dy. destruct (Main.pcfTap _ _ _ _ dx dy);
        unfold shadowMin; lra. }
    rewrite Hs. change (float 53) with 53. unfold shadowMin in *. lra.
  - unfold shadowMin. lra.
Qed.

(** ** A fragment whose whole kernel is occluded *)

Lemma normalize_unit_id (v : V3.t) : V3.dot v v = 1 -> V3.normalize v = v.
Proof.
  intros H. unfold V3.normalize, V3.length. rewrite H, sqrt_1.
  destruct v; unfold V3.div; simpl. f_equal; field.
Qed.

Lemma tanEyeN_faceOn : Main.tanEyeN faceOn = faceOn.
Proof.
  unfold Main.tanEyeN. apply normalize_unit_id.
  unfold V3.dot; simpl; ring.
Qed.

Lemma tanLightN_lightFromSide :
  Main.tanLightN lightFromSide = V3.mk (- (3 / 5)) 0 (4 / 5).
Proof.
  unfold Main.tanLightN. rewrite normalize_unit_id.
  - reflexivity.
  - unfold V3.dot; simpl; field.
Qed.

Lemma numShadowSteps_lightFromSide :
  Main.numShadowSteps lightFromSide = 19%Z.
Proof.
  unfold Main.numShadowSteps. rewrite tanLightN_lightFromSide. simpl.
  rewrite Rabs_right by lra.
  replace (lerp 48 12 (4 / 5)) with (96 / 5) by (unfold lerp; field).
  unfold int. destruct (Rle_dec 0 (96 / 5)) as [_ | H]; [|exfalso; lra].
  symmetry. apply Int_part_spec. split; lra.
Qed.

Lemma shadowDeltaH_lightFromSide : Main.shadowDeltaH lightFromSide = 1 / 19.
Proof.
  unfold Main.shadowDeltaH. now rewrite numShadowSteps_lightFromSide.
Qed.

Lemma shadowDeltaUV_lightFromSide :
  Main.shadowDeltaUV lightFromSide 1 = V2.mk 0 (- (3 / 76)).
Proof.
  unfold Main.shadowDeltaUV.
  rewrite numShadowSteps_lightFromSide, tanLightN_lightFromSide.
  unfold V2.div, V2.scale, V3.yx, Main.steepScale; simpl.
  rewrite Rabs_right by lra.
  change (float 19) with 19. f_equal; field.
Qed.

Lemma in_pit_true (p : V2.t) :
  in_pit p = true
  <-> 0 <= V2.x p < 1 / 1024 /\ 0 <= V2.y p < 1 / 1024.
Proof.
  unfold in_pit, leb.
  rewrite !andb_true_iff, !ltb_true.
  destruct (Rle_dec 0 (V2.x p)), (Rle_dec 0 (V2.y p));
    split; intros; try tauto; try (exfalso; intuition congruence);
    intuition lra.
Qed.

Lemma pit_height_inside (p : V2.t) :
  in_pit p = true -> V4.r (texture pitHeightMap p) = 1 / 2.
Proof. intros H; simpl; now rewrite H. Qed.

Lemma pit_height_outside (p : V2.t) :
  in_pit p = false -> V4.r (texture pitHeightMap p) = 1.
Proof. intros H; simpl; now rewrite H. Qed.

Lemma in_pit_centre : in_pit pitCentre = true.
Proof. apply in_pit_true; unfold pitCentre; simpl; lra. Qed.

(** A point whose x or y coordinate is outside the first texel is outside
    the pit. *)
Lemma in_pit_false (p : V2.t) :
  V2.x p < 0 \/ 1 / 1024 <= V2.x p \/ V2.y p < 0 \/ 1 / 1024 <= V2.y p ->
  in_pit p = false.
Proof.
  intros H. destruct (in_pit p) eqn:E; auto.
  apply in_pit_true in E. lra.
Qed.

Lemma IZR_nonzero_far (k : Z) :
  (k <> 0)%Z -> IZR k <= -1 \/ 1 <= IZR k.
Proof.
  intros H. destruct (Z_lt_le_dec k 0) as [Hn | Hp].
  - left. apply (IZR_le k (-1)). lia.
  - right. apply (IZR_le 1 k). lia.
Qed.

(** Every tap of the kernel around the pit centre is in shadow: the taps
    off the centre start on the plateau, the centre tap reaches it after
    one step toward the light. *)
Lemma pit_tap_occluded (dx dy : Z) :
  Main.pcfTap lightFromSide pitHeightMap 1 pitCentre dx dy = true.
Proof.
  unfold Main.pcfTap.
  rewrite numShadowSteps_lightFromSide, shadowDeltaH_lightFromSide.
  rewrite (pit_height_inside pitCentre in_pit_centre).
  change (Z.to_nat 19) with 19%nat. cbn [Main.shadowMarch].
  rewrite shadowDeltaH_lightFromSide, shadowDeltaUV_lightFromSide.
  assert (H1 : ltb (1 / 2 + 1 / 19 * (1 / 10)) 1 = true)
    by (apply ltb_true; lra).
  rewrite H1.
  set (tapUV := V2.add pitCentre
                  (V2.scale (V2.mk (float dx) (float dy)) (15 / 10000))).
  destruct (in_pit tapUV) eqn:Hin.
  - (* only the centre tap starts inside the pit *)
    apply in_pit_true in Hin. unfold tapUV, float in Hin. simpl in Hin.
    assert (Hdx : dx = 0%Z).
    { destruct (Z.eq_dec dx 0) as [|Hn]; auto.
      destruct (IZR_nonzero_far dx Hn); lra. }
    assert (Hdy : dy = 0%Z).
    { destruct (Z.eq_dec dy 0) as [|Hn]; auto.
      destruct (IZR_nonzero_far dy Hn); lra. }
    rewrite (pit_height_inside tapUV) by (apply in_pit_true; exact Hin).
    assert (H2 : gtb (1 / 2) (1 / 2 + 1 / 19 * (1 / 10)) = false)
      by (apply gtb_false; lra).
    rewrite H2.
    assert (H3 : ltb (1 / 2 + 1 / 19 * (1 / 10) + 1 / 19) 1 = true)
      by (apply ltb_true; lra).
    rewrite H3.
    rewrite pit_height_outside.
    + assert (H4 : gtb 1 (1 / 2 + 1 / 19 * (1 / 10) + 1 / 19) = true)
        by (apply gtb_true; lra).
      now rewrite H4.
    + apply in_pit_false. right; right; left.
      unfold tapUV. subst dy. simpl. change (float 0) with 0. lra.
  - rewrite (pit_height_outside tapUV Hin).
    assert (H4 : gtb 1 (1 / 2 + 1 / 19 * (1 / 10)) = true)
      by (apply gtb_true; lra).
    now rewrite H4.
Qed.

(** The two normals and the light at the pit centre. *)
Lemma dot_normalize_pos (v w : V3.t) :
  0 < V3.dot v w -> 0 < V3.dot (V3.normalize v) w.
Proof.
  intros H.
  assert (Hd : V3.dot v v <> 0).
  { intros H0. unfold V3.dot in *.
    assert (V3.x v = 0) by nra. assert (V3.y v = 0) by nra.
    assert (V3.z v = 0) by nra. nra. }
  pose proof (length_pos v Hd) as HL.
  replace (V3.dot (V3.normalize v) w) with (V3.dot v w / V3.length v).
  - now apply Rdiv_lt_0_compat.
  - unfold V3.normalize, V3.div, V3.dot; simpl. field. lra.
Qed.

Lemma pit_NdotL_pos :
  0 < Main.NdotL lightFromSide pitHeightMap flatNormalMap 1 pitCentre.
Proof.
  unfold Main.NdotL.
  apply Rlt_le_trans with (2 := Rmax_l _ _).
  unfold Main.N. apply dot_normalize_pos.
  rewrite tanLightN_lightFromSide.
  assert (HM : 0 < V3.dot (Main.nM flatNormalMap pitCentre)
                          (V3.mk (- (3 / 5)) 0 (4 / 5))).
  { unfold Main.nM, Main.decodeNormal. apply dot_normalize_pos.
    unfold V3.dot; simpl. lra. }
  assert (HH : 0 < V3.dot (Main.nH pitHeightMap 1 pitCentre)
                          (V3.mk (- (3 / 5)) 0 (4 / 5))).
  { unfold Main.nH, computeHeightNormalTS. apply dot_normalize_pos.
    rewrite (pit_height_inside pitCentre in_pit_centre).
    rewrite !pit_height_outside.
    - unfold V3.dot; simpl. lra.
    - apply in_pit_false. right; right; right.
      unfold Main.texelSize, float; simpl. lra.
    - apply in_pit_false. right; left.
      unfold Main.texelSize, float; simpl. lra. }
  unfold V3.dot, V3.mix in *; simpl in *. rewrite !mix_half. lra.
Qed.

(** C1. The shadow factor can fall below [shadowMin]: for the fragment at
    the centre of the pit, seen face-on and lit from the side with
    self-shadowing on, [parallaxTrace] returns the fragment's own UV, all
    49 kernel taps are occluded, and the block divides their sum
    [49 * shadowMin] by [pcfSamples = 53], which gives [49/530], less
    than [shadowMin = 1/10].  [main] composites with that factor. *)
Theorem shadow_below_shadowMin_at_pit :
  parallaxTrace pitHeightMap pitCentre (Main.tanEyeN faceOn) 1 origin 73
  = Some pitCentre
  /\ Main.main 73 pitCentre faceOn lightFromSide (constSampler (grey 1))
       pitHeightMap flatNormalMap 1 1 origin
     = Some (Main.fragColor faceOn lightFromSide (constSampler (grey 1))
               pitHeightMap flatNormalMap 1 1 pitCentre)
  /\ Main.pcfLoops lightFromSide pitHeightMap 1 pitCentre
     = (49 * shadowMin, 53%Z)
  /\ Main.shadow lightFromSide pitHeightMap flatNormalMap 1 1 pitCentre
     = 49 / 530
  /\ 49 / 530 < shadowMin.
Proof.
  assert (Htrace :
            parallaxTrace pitHeightMap pitCentre (Main.tanEyeN faceOn) 1
              origin 73 = Some pitCentre).
  { rewrite tanEyeN_faceOn. apply parallaxTrace_zero_delta.
    - unfold deltaUV, V2.div, V2.scale, V2.neg, V3.yx; simpl.
      f_equal; unfold Rdiv; ring.
    - simpl. rewrite Rabs_R1. lra.
    - rewrite (pit_height_inside pitCentre in_pit_centre). lra.
    - apply le_n. }
  assert (Hloops : Main.pcfLoops lightFromSide pitHeightMap 1 pitCentre
                   = (49 * shadowMin, 53%Z)).
  { destruct (pcfLoops_bounds lightFromSide pitHeightMap 1 pitCentre
                shadowMin shadowMin) as [Hs Hf].
    { intros dx dy. rewrite pit_tap_occluded. lra. }
    destruct (Main.pcfLoops lightFromSide pitHeightMap 1 pitCentre)
      as [sum n]. simpl in Hs, Hf. f_equal; [lra | exact Hs]. }
  repeat split.
  - exact Htrace.
  - unfold Main.main. now rewrite Htrace.
  - exact Hloops.
  - unfold Main.shadow. rewrite Hloops.
    assert (H1 : gtb 1 0 = true) by (apply gtb_true; lra).
    assert (H2 : gtb (Main.NdotL lightFromSide pitHeightMap flatNormalMap 1
                        pitCentre) 0 = true)
      by (apply gtb_true, pit_NdotL_pos).
    rewrite H1, H2. simpl. change (float 53) with 53.
    unfold shadowMin. field.
  - unfold shadowMin. lra.
Qed.

(** ** The interpolation weight *)

(** The clamp keeps the weight in [0, 1] in every state. *)
Lemma traceWeight_range (viewDir : V3.t) (s : TraceState) :
  0 <= traceWeight viewDir s <= 1.
Proof. unfold traceWeight. apply clamp_range; lra. Qed.

(** In exact arithmetic the previous sample is strictly below the previous
    ray height whenever the loop exits, so [beforeDepth] is negative. *)
Lemma traceLoop_beforeDepth
    (heightMap : sampler2D) (viewDir : V3.t) (bumpScale : R) (fuel : nat) :
  forall s s' : TraceState,
    beforeDepth viewDir s < 0 ->
    traceLoop heightMap viewDir bumpScale fuel s = Some s' ->
    beforeDepth viewDir s' < 0.
Proof.
  induction fuel as [|fuel IH]; intros s s' Hb Hl; simpl in Hl;
    destruct (traceCond s) eqn:Hc; try discriminate;
    try (inversion Hl; subst; exact Hb).
  apply (IH (traceBody heightMap viewDir bumpScale s)); auto.
  apply traceCond_true in Hc. unfold beforeDepth; simpl. lra.
Qed.

Lemma beforeDepth_negative
    (heightMap : sampler2D) (uv : V2.t) (viewDir : V3.t) (bumpScale : R)
    (prevUV_undef : V2.t) (fuel : nat) (s' : TraceState) :
  Rabs (V3.z viewDir) <= 1 ->
  traceLoop heightMap viewDir bumpScale fuel
    (traceInit heightMap uv prevUV_undef) = Some s' ->
  beforeDepth viewDir s' < 0.
Proof.
  intros Hz. apply traceLoop_beforeDepth.
  pose proof (deltaH_pos viewDir Hz). unfold beforeDepth; simpl. lra.
Qed.

(** The denominator [beforeDepth + afterDepth] can be exactly zero: on a
    flat height field of height 71/72 seen face-on the loop exits after one
    iteration with [beforeDepth = -1/72] and [afterDepth = 1/72]. *)
Example zero_denominator_flat_field :
  exists s',
    traceLoop (constSampler (grey (71 / 72))) faceOn 1 73
      (traceInit (constSampler (grey (71 / 72))) origin origin) = Some s'
    /\ beforeDepth faceOn s' = - (1 / 72)
    /\ afterDepth s' = 1 / 72
    /\ beforeDepth faceOn s' + afterDepth s' = 0.
Proof.
  assert (Hn : numSteps faceOn = 36).
  { rewrite numSteps_eq. simpl. rewrite Rabs_R1. lra. }
  assert (Hd : deltaH faceOn = 1 / 36) by (unfold deltaH; now rewrite Hn).
  set (hm := constSampler (grey (71 / 72))).
  set (s0 := traceInit hm origin origin).
  assert (H0 : traceCond s0 = true).
  { apply traceCond_true. simpl. lra. }
  assert (H1 : traceCond (traceBody hm faceOn 1 s0) = false).
  { apply traceCond_false. right. simpl. rewrite Hd. lra. }
  exists (traceBody hm faceOn 1 s0).
  repeat split.
  - change (traceLoop hm faceOn 1 73 s0)
      with (if traceCond s0
            then traceLoop hm faceOn 1 72 (traceBody hm faceOn 1 s0)
            else Some s0).
    rewrite H0.
    change (traceLoop hm faceOn 1 72 (traceBody hm faceOn 1 s0))
      with (if traceCond (traceBody hm faceOn 1 s0)
            then traceLoop hm faceOn 1 71
                   (traceBody hm faceOn 1 (traceBody hm faceOn 1 s0))
            else Some (traceBody hm faceOn 1 s0)).
    now rewrite H1.
  - unfold beforeDepth; simpl. rewrite Hd. lra.
  - unfold afterDepth; simpl. rewrite Hd. lra.
  - unfold beforeDepth, afterDepth; simpl. rewrite Hd. lra.
Qed.

(** ** [main] returns *)

(** For a nonzero view vector [main] writes a colour as soon as it is
    given fuel for 73 iterations of the search loop. *)
Lemma main_returns
    (fuel : nat) (FragUV : V2.t) (tanEyeVec tanLightVec : V3.t)
    (diffuseTexture heightMap normalMap : sampler2D)
    (selfShadowTest bumpScale : R) (prevUV_undef : V2.t) :
  V3.dot tanEyeVec tanEyeVec <> 0 ->
  (73 <= fuel)%nat ->
  exists c,
    Main.main fuel FragUV tanEyeVec tanLightVec diffuseTexture heightMap
      normalMap selfShadowTest bumpScale prevUV_undef = Some c.
Proof.
  intros Hv Hf.
  assert (Hz : Rabs (V3.z (Main.tanEyeN tanEyeVec)) <= 1).
  { apply unit_z_le_1. unfold Main.tanEyeN. now apply normalize_unit. }
  destruct (traceLoop_from_init heightMap FragUV (Main.tanEyeN tanEyeVec)
              bumpScale prevUV_undef fuel Hz Hf) as (n & s' & _ & _ & Hl & _).
  unfold Main.main, parallaxTrace. rewrite Hl. simpl. eauto.
Qed.

(* ================================================================== *)
(** * Further properties of the shader *)

(** ** [computeHeightNormalTS] *)

(** X1. The height-derivative normal is a unit vector that points away from
    the surface ([z > 0]), whatever the height map, UV, texel size and
    bump scale are. *)
Theorem computeHeightNormalTS_unit_up
    (heightMap : sampler2D) (uv texelSize : V2.t) (bumpScale : R) :
  V3.dot (computeHeightNormalTS heightMap uv texelSize bumpScale)
         (computeHeightNormalTS heightMap uv texelSize bumpScale) = 1
  /\ 0 < V3.z (computeHeightNormalTS heightMap uv texelSize bumpScale).
Proof.
  unfold computeHeightNormalTS. cbv zeta. split.
  - apply normalize_unit. unfold V3.dot; simpl.
    set (dx := (_ - _) * bumpScale). set (dy := (_ - _) * bumpScale).
    pose proof (Rle_0_sqr dx). pose proof (Rle_0_sqr dy).
    unfold Rsqr in *. lra.
  - apply normalize_z_pos. simpl. lra.
Qed.

(** X2. Where the two neighbouring texels have the height of the centre, or
    with a zero bump scale, the height-derivative normal is [(0, 0, 1)]. *)
Theorem computeHeightNormalTS_flat
    (heightMap : sampler2D) (uv texelSize : V2.t) (bumpScale : R)
    (H : bumpScale = 0
         \/ (V4.r (texture heightMap
                     (V2.add uv (V2.mk (V2.x texelSize) 0)))
             = V4.r (texture heightMap uv)
             /\ V4.r (texture heightMap
                        (V2.add uv (V2.mk 0 (V2.y texelSize))))
                = V4.r (texture heightMap uv))) :
  computeHeightNormalTS heightMap uv texelSize bumpScale = V3.mk 0 0 1.
Proof.
  unfold computeHeightNormalTS. cbv zeta.
  set (dx := (_ - _) * bumpScale). set (dy := (_ - _) * bumpScale).
  assert (Hx : dx = 0).
  { unfold dx. destruct H as [-> | [-> _]]; ring. }
  assert (Hy : dy = 0).
  { unfold dy. destruct H as [-> | [_ ->]]; ring. }
  rewrite Hx, Hy. replace (- 0) with 0 by ring.
  apply normalize_unit_id. unfold V3.dot; simpl. ring.
Qed.

Lemma computeHeightNormalTS_flat_witness :
  computeHeightNormalTS (constSampler (grey (1 / 3))) origin (V2.mk 1 1) 2
  = V3.mk 0 0 1.
Proof.
  apply computeHeightNormalTS_flat. right. split; reflexivity.
Defined.

(** ** What the search loop leaves behind *)

Lemma V2_add_scale_S (p d : V2.t) (n : nat) :
  V2.add (V2.add p (V2.scale d (INR n))) d = V2.add p (V2.scale d (INR (S n))).
Proof.
  rewrite S_INR. destruct p, d; unfold V2.add, V2.scale; simpl.
  f_equal; ring.
Qed.

Lemma V2_add_scale_0 (p d : V2.t) : V2.add p (V2.scale d (INR 0)) = p.
Proof.
  destruct p, d; unfold V2.add, V2.scale; simpl. f_equal; ring.
Qed.

Lemma trace_after_body
    (heightMap : sampler2D) (uv : V2.t) (viewDir : V3.t) (bumpScale : R)
    (k : nat) (s : TraceState) :
  trace_after heightMap uv viewDir bumpScale k s ->
  traceCond s = true ->
  trace_after heightMap uv viewDir bumpScale (S k)
    (traceBody heightMap viewDir bumpScale s).
Proof.
  intros (Hh & Hc & Hs & Hp) Hcond. apply traceCond_true in Hcond.
  unfold trace_after. simpl heightRem. simpl curUV. simpl curSample.
  simpl prevUV. simpl prevSample.
  repeat split.
  - rewrite Hh, S_INR. ring.
  - rewrite Hc. apply V2_add_scale_S.
  - replace (S k - 1)%nat with k by lia. exact Hc.
  - exact Hs.
  - lra.
Qed.

Lemma trace_after_loop
    (heightMap : sampler2D) (uv : V2.t) (viewDir : V3.t) (bumpScale : R) :
  forall (fuel k n : nat) (s s' : TraceState),
    trace_after heightMap uv viewDir bumpScale k s ->
    traceLoop heightMap viewDir bumpScale fuel s = Some s' ->
    traceIterations heightMap viewDir bumpScale fuel s = Some n ->
    trace_after heightMap uv viewDir bumpScale (k + n) s'
    /\ traceCond s' = false.
Proof.
  induction fuel as [|fuel IH]; intros k n s s' Hinv Hl Hi;
    simpl in Hl, Hi; destruct (traceCond s) eqn:Hc; try discriminate.
  - inversion Hl; inversion Hi; subst. rewrite Nat.add_0_r. auto.
  - destruct (traceIterations heightMap viewDir bumpScale fuel
                (traceBody heightMap viewDir bumpScale s)) as [m|] eqn:Hm;
      [|discriminate].
    simpl in Hi. inversion Hi; subst.
    replace (k + S m)%nat with (S k + m)%nat by lia.
    apply (IH (S k) m (traceBody heightMap viewDir bumpScale s)); auto.
    now apply trace_after_body.
  - inversion Hl; inversion Hi; subst. rewrite Nat.add_0_r. auto.
Qed.

Lemma trace_after_init
    (heightMap : sampler2D) (uv : V2.t) (viewDir : V3.t) (bumpScale : R)
    (prevUV_undef : V2.t) :
  trace_after heightMap uv viewDir bumpScale 0
    (traceInit heightMap uv prevUV_undef).
Proof.
  unfold trace_after. simpl. repeat split.
  - ring.
  - symmetry. apply (V2_add_scale_0 uv (deltaUV viewDir bumpScale)).
  - lia.
  - lia.
  - lia.
Qed.

(** X3. For a unit view direction with nonzero z-component the loop exits
    after some [n <= 73] iterations with [heightRem = 1 - n * deltaH], the current position
    [uv + n * deltaUV] and, once an iteration has run, the previous
    position [uv + (n - 1) * deltaUV]; both samples are the height map's
    values at these two positions. *)
Theorem traceLoop_exit_state
    (heightMap : sampler2D) (uv : V2.t) (viewDir : V3.t) (bumpScale : R)
    (prevUV_undef : V2.t) (fuel : nat)
    (Hunit : V3.dot viewDir viewDir = 1)
    (Hz : V3.z viewDir <> 0)
    (Hfuel : (73 <= fuel)%nat) :
  exists (n : nat) (s' : TraceState),
    (n <= 73)%nat
    /\ traceLoop heightMap viewDir bumpScale fuel
         (traceInit heightMap uv prevUV_undef) = Some s'
    /\ heightRem s' = 1 - INR n * deltaH viewDir
    /\ curUV s' = V2.add uv (V2.scale (deltaUV viewDir bumpScale) (INR n))
    /\ curSample s' = V4.r (texture heightMap (curUV s'))
    /\ ((1 <= n)%nat ->
        prevUV s' = V2.add uv (V2.scale (deltaUV viewDir bumpScale)
                                        (INR (n - 1)))
        /\ prevSample s' = V4.r (texture heightMap (prevUV s'))).
Proof.
  pose proof (unit_z_le_1 viewDir Hunit) as Hz1.
  destruct (traceLoop_from_init heightMap uv viewDir bumpScale prevUV_undef
              fuel Hz1 Hfuel) as (n & s' & Hn & Hi & Hl & _).
  destruct (trace_after_loop heightMap uv viewDir bumpScale fuel 0 n _ s'
              (trace_after_init heightMap uv viewDir bumpScale prevUV_undef)
              Hl Hi) as [(Hh & Hc & Hs & Hp) _].
  simpl in Hh, Hc, Hp.
  exists n, s'. repeat split; auto; now destruct (Hp H).
Qed.

Lemma traceLoop_exit_state_witness :
  exists (n : nat) (s' : TraceState),
    (n <= 73)%nat
    /\ traceLoop (constSampler (grey (1 / 2))) faceOn 1 73
         (traceInit (constSampler (grey (1 / 2))) origin origin) = Some s'
    /\ heightRem s' = 1 - INR n * deltaH faceOn
    /\ curUV s' = V2.add origin (V2.scale (deltaUV faceOn 1) (INR n))
    /\ curSample s'
       = V4.r (texture (constSampler (grey (1 / 2))) (curUV s'))
    /\ ((1 <= n)%nat ->
        prevUV s' = V2.add origin (V2.scale (deltaUV faceOn 1)
                                            (INR (n - 1)))
        /\ prevSample s'
           = V4.r (texture (constSampler (grey (1 / 2))) (prevUV s'))).
Proof.
  apply traceLoop_exit_state.
  - unfold V3.dot; simpl; ring.
  - simpl; lra.
  - apply le_n.
Defined.

(** ** The interpolation weight at the exit of the loop *)

Lemma clamp_below (x lo hi : R) : lo <= hi -> x <= lo -> clamp x lo hi = lo.
Proof.
  intros H1 H2; unfold clamp, Rmin, Rmax.
  destruct (Rle_dec x lo); destruct (Rle_dec _ hi); lra.
Qed.

Lemma mix_zero (x y : R) : mix x y 0 = x.
Proof. unfold mix; ring. Qed.

Lemma V2_mix_zero (p q : V2.t) : V2.mix p q 0 = p.
Proof. destruct p; unfold V2.mix; simpl; now rewrite !mix_zero. Qed.


(** When the loop condition holds at entry the body runs at least once. *)
Lemma traceIterations_entered
    (heightMap : sampler2D) (viewDir : V3.t) (bumpScale : R) (fuel : nat)
    (s : TraceState) (n : nat) :
  traceCond s = true ->
  traceIterations heightMap viewDir bumpScale fuel s = Some n ->
  (1 <= n)%nat.
Proof.
  intros Hc Hi. destruct fuel as [|fuel]; simpl in Hi; rewrite Hc in Hi;
    [discriminate|].
  destruct (traceIterations heightMap viewDir bumpScale fuel
              (traceBody heightMap viewDir bumpScale s)); simpl in Hi;
    [inversion Hi; lia | discriminate].
Qed.

(** On exit the previous sample is strictly under the previous ray
    height and, for a height map without negative values, the current
    sample is on or above the ray. *)
Lemma traceLoop_exit_signs
    (heightMap : sampler2D) (uv : V2.t) (viewDir : V3.t) (bumpScale : R)
    (prevUV_undef : V2.t) (fuel : nat) :
  Rabs (V3.z viewDir) <= 1 ->
  (forall p, 0 <= V4.r (texture heightMap p)) ->
  (73 <= fuel)%nat ->
  exists s',
    traceLoop heightMap viewDir bumpScale fuel
      (traceInit heightMap uv prevUV_undef) = Some s'
    /\ beforeDepth viewDir s' < 0
    /\ 0 <= afterDepth s'.
Proof.
  intros Hz Hpos Hfuel.
  destruct (traceLoop_from_init heightMap uv viewDir bumpScale prevUV_undef
              fuel Hz Hfuel) as (n & s' & Hn & Hi & Hl & _).
  destruct (trace_after_loop heightMap uv viewDir bumpScale fuel 0 n _ s'
              (trace_after_init heightMap uv viewDir bumpScale prevUV_undef)
              Hl Hi) as [(Hh & Hc & Hs & Hp) Hcond].
  exists s'. split; [exact Hl|]. split.
  - apply (beforeDepth_negative heightMap uv viewDir bumpScale prevUV_undef
             fuel s' Hz Hl).
  - apply traceCond_false in Hcond. unfold afterDepth.
    pose proof (Hpos (curUV s')) as H0. rewrite <- Hs in H0.
    destruct Hcond; lra.
Qed.

(** X4. The code's comment at the exit of the loop, "at this point curSample
    >= heightRem", holds for every height map without negative values
    and every unit view direction, and the overshoot of the previous
    sample is strictly negative. *)
Theorem traceLoop_exit_depths
    (heightMap : sampler2D) (uv : V2.t) (viewDir : V3.t) (bumpScale : R)
    (prevUV_undef : V2.t) (fuel : nat)
    (Hunit : V3.dot viewDir viewDir = 1)
    (Hpos : forall p, 0 <= V4.r (texture heightMap p))
    (Hfuel : (73 <= fuel)%nat) :
  exists s',
    traceLoop heightMap viewDir bumpScale fuel
      (traceInit heightMap uv prevUV_undef) = Some s'
    /\ heightRem s' <= curSample s'
    /\ afterDepth s' >= 0
    /\ beforeDepth viewDir s' < 0.
Proof.
  destruct (traceLoop_exit_signs heightMap uv viewDir bumpScale prevUV_undef
              fuel (unit_z_le_1 viewDir Hunit) Hpos Hfuel)
    as (s' & Hl & Hb & Ha).
  exists s'. unfold afterDepth in *. repeat split; auto; lra.
Qed.

Lemma traceLoop_exit_depths_witness :
  exists s',
    traceLoop (constSampler (grey (1 / 2))) faceOn 1 73
      (traceInit (constSampler (grey (1 / 2))) origin origin) = Some s'
    /\ heightRem s' <= curSample s'
    /\ afterDepth s' >= 0
    /\ beforeDepth faceOn s' < 0.
Proof.
  apply traceLoop_exit_depths.
  - unfold V3.dot; simpl; ring.
  - intros p; simpl; lra.
  - apply le_n.
Defined.



(** ** The unassigned [prevUV] *)

(** X7. When the first sample exceeds [1 + deltaH] (a height map with values
    above 1.0) no iteration runs, the weight clamps to 0 and the function
    returns the content of the unassigned [prevUV]. *)
Theorem parallaxTrace_returns_unassigned
    (heightMap : sampler2D) (uv : V2.t) (viewDir : V3.t) (bumpScale : R)
    (prevUV_undef : V2.t) (fuel : nat)
    (Hunit : V3.dot viewDir viewDir = 1)
    (Hbig : 1 + deltaH viewDir < V4.r (texture heightMap uv)) :
  parallaxTrace heightMap uv viewDir bumpScale prevUV_undef fuel
  = Some prevUV_undef.
Proof.
  pose proof (deltaH_pos viewDir (unit_z_le_1 viewDir Hunit)) as Hd.
  assert (Hc : traceCond (traceInit heightMap uv prevUV_undef) = false).
  { apply traceCond_false. right. simpl. lra. }
  unfold parallaxTrace. destruct fuel; simpl; rewrite Hc; simpl; f_equal;
    unfold traceFinish, traceWeight, beforeDepth, afterDepth; simpl;
    (rewrite clamp_below; [apply V2_mix_zero | lra |]);
    (assert (Hs : 0 < 1 - (1 + deltaH viewDir)
                      + (V4.r (texture heightMap uv) - 1)) by lra;
     pose proof (Rinv_0_lt_compat _ Hs); unfold Rdiv; nra).
Qed.

Lemma parallaxTrace_returns_unassigned_witness :
  parallaxTrace (constSampler (grey 2)) origin faceOn 1 (V2.mk 5 7) 0
  = Some (V2.mk 5 7).
Proof.
  apply parallaxTrace_returns_unassigned.
  - unfold V3.dot; simpl; ring.
  - unfold deltaH. rewrite numSteps_eq. simpl. rewrite Rabs_R1. lra.
Defined.

(** ** Views from below the surface *)

Lemma traceLoop_same_steps
    (heightMap : sampler2D) (v w : V3.t) (bumpScale : R) :
  deltaH v = deltaH w -> deltaUV v bumpScale = deltaUV w bumpScale ->
  forall fuel s,
    traceLoop heightMap v bumpScale fuel s
    = traceLoop heightMap w bumpScale fuel s.
Proof.
  intros Hh Hu. induction fuel as [|fuel IH]; intros s; simpl;
    destruct (traceCond s); auto.
  rewrite IH. f_equal. unfold traceBody. now rewrite Hh, Hu.
Qed.

(** X8. [parallaxTrace] only reads [abs(viewDir.z)]: a view direction and its
    mirror image below the surface give the same result. *)
Theorem parallaxTrace_z_sign
    (heightMap : sampler2D) (uv : V2.t) (x y z : R) (bumpScale : R)
    (prevUV_undef : V2.t) (fuel : nat) :
  parallaxTrace heightMap uv (V3.mk x y (- z)) bumpScale prevUV_undef fuel
  = parallaxTrace heightMap uv (V3.mk x y z) bumpScale prevUV_undef fuel.
Proof.
  assert (Hn : numSteps (V3.mk x y (- z)) = numSteps (V3.mk x y z)).
  { unfold numSteps; simpl. now rewrite Rabs_Ropp. }
  assert (Hh : deltaH (V3.mk x y (- z)) = deltaH (V3.mk x y z)).
  { unfold deltaH. now rewrite Hn. }
  assert (Hu : deltaUV (V3.mk x y (- z)) bumpScale
               = deltaUV (V3.mk x y z) bumpScale).
  { unfold deltaUV. rewrite Hn. simpl. now rewrite Rabs_Ropp. }
  unfold parallaxTrace.
  rewrite (traceLoop_same_steps heightMap _ _ bumpScale Hh Hu).
  destruct (traceLoop heightMap (V3.mk x y z) bumpScale fuel _); simpl; auto.
  f_equal. unfold traceFinish, traceWeight, beforeDepth. now rewrite Hh.
Qed.

(** ** Where the returned UV lies *)

Lemma V2_mix_on_ray (p d : V2.t) (n : nat) (t : R) :
  (1 <= n)%nat ->
  V2.mix (V2.add p (V2.scale d (INR (n - 1))))
         (V2.add p (V2.scale d (INR n))) t
  = V2.add p (V2.scale d (INR n - 1 + t)).
Proof.
  intros Hn. rewrite minus_INR by exact Hn. simpl (INR 1).
  destruct p, d; unfold V2.mix, V2.add, V2.scale, mix; simpl.
  f_equal; ring.
Qed.

(** The loop, its iteration count and the returned UV together: after
    [n >= 1] iterations the result is [uv + (n - 1 + t) * deltaUV] with the
    weight [t] in [0, 1]. *)
Lemma parallaxTrace_ray_point
    (heightMap : sampler2D) (uv : V2.t) (viewDir : V3.t) (bumpScale : R)
    (prevUV_undef : V2.t) (fuel : nat) :
  Rabs (V3.z viewDir) <= 1 ->
  (73 <= fuel)%nat ->
  exists (n : nat) (s' : TraceState),
    (n <= 73)%nat
    /\ traceIterations heightMap viewDir bumpScale fuel
         (traceInit heightMap uv prevUV_undef) = Some n
    /\ traceLoop heightMap viewDir bumpScale fuel
         (traceInit heightMap uv prevUV_undef) = Some s'
    /\ 0 <= traceWeight viewDir s' <= 1
    /\ ((1 <= n)%nat ->
        parallaxTrace heightMap uv viewDir bumpScale prevUV_undef fuel
        = Some (V2.add uv (V2.scale (deltaUV viewDir bumpScale)
                             (INR n - 1 + traceWeight viewDir s')))).
Proof.
  intros Hz Hfuel.
  destruct (traceLoop_from_init heightMap uv viewDir bumpScale prevUV_undef
              fuel Hz Hfuel) as (n & s' & Hn & Hi & Hl & _).
  destruct (trace_after_loop heightMap uv viewDir bumpScale fuel 0 n _ s'
              (trace_after_init heightMap uv viewDir bumpScale prevUV_undef)
              Hl Hi) as [(Hh & Hc & Hs & Hp) _].
  exists n, s'. repeat split; auto; try apply traceWeight_range.
  intros H1. simpl in Hc, Hp. destruct (Hp H1) as (Hprev & _).
  unfold parallaxTrace. rewrite Hl. simpl. f_equal.
  unfold traceFinish. rewrite Hprev, Hc. now apply V2_mix_on_ray.
Qed.

(** X9. For a unit view direction with nonzero z-component and a first
    sample below 1.0 the returned UV lies on the march ray,
    [uv + lambda * deltaUV] with [0 <= lambda <= 73]: the displacement is
    bounded by 73 steps. *)
Theorem parallaxTrace_on_ray
    (heightMap : sampler2D) (uv : V2.t) (viewDir : V3.t) (bumpScale : R)
    (prevUV_undef : V2.t) (fuel : nat)
    (Hunit : V3.dot viewDir viewDir = 1)
    (Hz : V3.z viewDir <> 0)
    (Hlt : V4.r (texture heightMap uv) < 1)
    (Hfuel : (73 <= fuel)%nat) :
  exists lambda : R,
    0 <= lambda <= 73
    /\ parallaxTrace heightMap uv viewDir bumpScale prevUV_undef fuel
       = Some (V2.add uv (V2.scale (deltaUV viewDir bumpScale) lambda)).
Proof.
  pose proof (unit_z_le_1 viewDir Hunit) as Hz1.
  destruct (parallaxTrace_ray_point heightMap uv viewDir bumpScale
              prevUV_undef fuel Hz1 Hfuel)
    as (n & s' & Hn & Hi & Hl & Ht & Hres).
  assert (H1 : (1 <= n)%nat).
  { apply (traceIterations_entered heightMap viewDir bumpScale fuel
             (traceInit heightMap uv prevUV_undef) n); [|exact Hi].
    apply traceCond_true. simpl. lra. }
  exists (INR n - 1 + traceWeight viewDir s'). split.
  - apply le_INR in Hn. apply le_INR in H1.
    replace (INR 73) with 73 in Hn by (simpl; ring).
    replace (INR 1) with 1 in H1 by (simpl; ring). lra.
  - apply Hres. exact H1.
Qed.

Lemma parallaxTrace_on_ray_witness :
  exists lambda : R,
    0 <= lambda <= 73
    /\ parallaxTrace (constSampler (grey (1 / 2))) origin lightFromSide 1
         origin 73
       = Some (V2.add origin (V2.scale (deltaUV lightFromSide 1) lambda)).
Proof.
  apply parallaxTrace_on_ray.
  - unfold V3.dot; simpl; field.
  - simpl; lra.
  - simpl; lra.
  - apply le_n.
Defined.

(** X10. On a flat height field of height [c < 1 - deltaH], for a unit view
    direction with nonzero z-component, the loop runs at least twice, so
    the returned UV is [uv + lambda * deltaUV] with [lambda >= 1]: the
    ray tracer displaces the UV on a featureless surface (by the depth
    of the surface below the top), it does not return the input UV. *)
Theorem parallaxTrace_flat_field
    (c : R) (uv : V2.t) (viewDir : V3.t) (bumpScale : R)
    (prevUV_undef : V2.t) (fuel : nat)
    (Hunit : V3.dot viewDir viewDir = 1)
    (Hz : V3.z viewDir <> 0)
    (Hc : c < 1 - deltaH viewDir)
    (Hfuel : (73 <= fuel)%nat) :
  exists (n : nat) (lambda : R),
    (2 <= n <= 73)%nat
    /\ traceIterations (constSampler (grey c)) viewDir bumpScale fuel
         (traceInit (constSampler (grey c)) uv prevUV_undef) = Some n
    /\ 1 <= lambda <= 73
    /\ parallaxTrace (constSampler (grey c)) uv viewDir bumpScale
         prevUV_undef fuel
       = Some (V2.add uv (V2.scale (deltaUV viewDir bumpScale) lambda)).
Proof.
  pose proof (unit_z_le_1 viewDir Hunit) as Hz1.
  pose proof (deltaH_pos viewDir Hz1) as Hd.
  pose proof (numSteps_range viewDir Hz1) as Hns.
  assert (Hd1 : deltaH viewDir < 1).
  { unfold deltaH. apply Rmult_lt_reg_r with (r := numSteps viewDir); [lra|].
    field_simplify; lra. }
  destruct (parallaxTrace_ray_point (constSampler (grey c)) uv viewDir
              bumpScale prevUV_undef fuel Hz1 Hfuel)
    as (n & s' & Hn & Hi & Hl & Ht & Hres).
  set (s0 := traceInit (constSampler (grey c)) uv prevUV_undef) in *.
  assert (H0 : traceCond s0 = true).
  { apply traceCond_true. simpl. lra. }
  assert (H1 : traceCond (traceBody (constSampler (grey c)) viewDir
                            bumpScale s0) = true).
  { apply traceCond_true. simpl. lra. }
  assert (H2 : (2 <= n)%nat).
  { destruct fuel as [|[|fuel]]; try lia.
    simpl in Hi. rewrite H0, H1 in Hi.
    destruct (traceIterations _ _ _ fuel _); simpl in Hi;
      [inversion Hi; lia | discriminate]. }
  exists n, (INR n - 1 + traceWeight viewDir s').
  split; [lia|]. split; [exact Hi|]. split.
  - apply le_INR in Hn. apply le_INR in H2.
    replace (INR 73) with 73 in Hn by (simpl; ring).
    replace (INR 2) with 2 in H2 by (simpl; ring). lra.
  - apply Hres. lia.
Qed.

Lemma parallaxTrace_flat_field_witness :
  exists (n : nat) (lambda : R),
    (2 <= n <= 73)%nat
    /\ traceIterations (constSampler (grey (1 / 2))) lightFromSide 1 73
         (traceInit (constSampler (grey (1 / 2))) origin origin) = Some n
    /\ 1 <= lambda <= 73
    /\ parallaxTrace (constSampler (grey (1 / 2))) origin lightFromSide 1
         origin 73
       = Some (V2.add origin (V2.scale (deltaUV lightFromSide 1) lambda)).
Proof.
  apply parallaxTrace_flat_field.
  - unfold V3.dot; simpl; field.
  - simpl; lra.
  - unfold deltaH. rewrite numSteps_eq. simpl.
    rewrite Rabs_right by lra. lra.
  - apply le_n.
Defined.

(** ** The self-shadow march *)

Lemma tanLightN_z_le_1 (tanLightVec : V3.t) :
  V3.dot tanLightVec tanLightVec <> 0 ->
  Rabs (V3.z (Main.tanLightN tanLightVec)) <= 1.
Proof.
  intros H. unfold Main.tanLightN. cbv zeta. unfold V3.set_x. simpl.
  apply (unit_z_le_1 (V3.normalize tanLightVec)).
  now apply normalize_unit.
Qed.

Lemma int_of_nonneg (x : R) (lo hi : Z) :
  IZR lo <= x <= IZR hi -> (0 <= lo)%Z -> (lo <= int x <= hi)%Z.
Proof.
  intros [Hl Hh] H0. unfold int.
  assert (0 <= IZR lo) by (apply (IZR_le 0 lo H0)).
  destruct (Rle_dec 0 x) as [_ | Hn]; [|exfalso; lra].
  destruct (base_Int_part x) as [H1 H2]. split.
  - apply Z.lt_succ_r, lt_IZR. rewrite succ_IZR. lra.
  - apply le_IZR. lra.
Qed.

Lemma numShadowSteps_range_aux (tanLightVec : V3.t) :
  V3.dot tanLightVec tanLightVec <> 0 ->
  (12 <= Main.numShadowSteps tanLightVec <= 48)%Z
  /\ 0 < Main.shadowDeltaH tanLightVec.
Proof.
  intros Hlight.
  pose proof (tanLightN_z_le_1 tanLightVec Hlight) as Hz.
  pose proof (Rabs_pos (V3.z (Main.tanLightN tanLightVec))) as Hp.
  assert (Hr : (12 <= Main.numShadowSteps tanLightVec <= 48)%Z).
  { unfold Main.numShadowSteps. apply int_of_nonneg; [|lia].
    unfold lerp. lra. }
  split; [exact Hr|].
  unfold Main.shadowDeltaH, float. apply Rdiv_lt_0_compat; [lra|].
  apply (IZR_lt 0). lia.
Qed.

(** X11. For every nonzero light vector the march uses between 12 and 48
    steps, and its height step [1 / numShadowSteps] is positive. *)
Theorem numShadowSteps_range
    (tanLightVec : V3.t)
    (Hlight : V3.dot tanLightVec tanLightVec <> 0) :
  (12 <= Main.numShadowSteps tanLightVec <= 48)%Z
  /\ 0 < Main.shadowDeltaH tanLightVec.
Proof.
  pose proof (tanLightN_z_le_1 tanLightVec Hlight) as Hz.
  pose proof (Rabs_pos (V3.z (Main.tanLightN tanLightVec))) as Hp.
  assert (Hr : (12 <= Main.numShadowSteps tanLightVec <= 48)%Z).
  { unfold Main.numShadowSteps. apply int_of_nonneg; [|lia].
    unfold lerp. lra. }
  split; [exact Hr|].
  unfold Main.shadowDeltaH, float. apply Rdiv_lt_0_compat; [lra|].
  apply (IZR_lt 0). lia.
Qed.

Lemma numShadowSteps_range_witness :
  (12 <= Main.numShadowSteps lightFromSide <= 48)%Z
  /\ 0 < Main.shadowDeltaH lightFromSide.
Proof.
  apply numShadowSteps_range.
  unfold V3.dot; simpl. lra.
Defined.

(** X12. With self-shadowing on and the surface facing the light the factor
    is at most 49/53 and at least 49/530: no fragment is left fully lit
    and none is darkened below 49/530. *)
Theorem shadow_when_enabled
    (tanLightVec : V3.t) (heightMap normalMap : sampler2D)
    (selfShadowTest bumpScale : R) (finalUV : V2.t)
    (Hon : 0 < selfShadowTest)
    (Hlit : 0 < V3.dot (Main.N heightMap normalMap bumpScale finalUV)
                       (Main.tanLightN tanLightVec)) :
  49 / 530
  <= Main.shadow tanLightVec heightMap normalMap selfShadowTest bumpScale
                 finalUV
  <= 49 / 53.
Proof.
  unfold Main.shadow.
  assert (H1 : gtb selfShadowTest 0 = true) by now apply gtb_true.
  assert (H2 : gtb (Main.NdotL tanLightVec heightMap normalMap bumpScale
                      finalUV) 0 = true).
  { apply gtb_true. unfold Main.NdotL.
    apply Rlt_le_trans with (2 := Rmax_l _ _). exact Hlit. }
  rewrite H1, H2. cbn [andb].
  destruct (pcfLoops_bounds tanLightVec heightMap bumpScale finalUV
              shadowMin 1) as [Hs Hf].
  { intros dx dy. destruct (Main.pcfTap _ _ _ _ dx dy);
      unfold shadowMin; lra. }
  rewrite Hs. change (float 53) with 53. unfold shadowMin in *. lra.
Qed.

Lemma pit_lit :
  0 < V3.dot (Main.N pitHeightMap flatNormalMap 1 pitCentre)
             (Main.tanLightN lightFromSide).
Proof.
  pose proof pit_NdotL_pos as H. unfold Main.NdotL in H.
  unfold Rmax in H. destruct (Rle_dec _ 0) in H; lra.
Qed.

Lemma shadow_when_enabled_witness :
  49 / 530
  <= Main.shadow lightFromSide pitHeightMap flatNormalMap 1 1 pitCentre
  <= 49 / 53.
Proof.
  apply shadow_when_enabled; [lra | apply pit_lit].
Defined.

(** A march that starts above every sample it can meet never reports an
    occluder. *)
Lemma shadowMarch_above
    (tanLightVec : V3.t) (heightMap : sampler2D) (bumpScale top : R) :
  0 <= Main.shadowDeltaH tanLightVec ->
  (forall p, V4.r (texture heightMap p) <= top) ->
  forall (n : nat) (h : R) (p : V2.t),
    top < h ->
    Main.shadowMarch tanLightVec heightMap bumpScale n h p = false.
Proof.
  intros Hd Htop. induction n as [|n IH]; intros h p Hh; simpl; auto.
  destruct (ltb h 1); auto.
  assert (Hg : gtb (V4.r (texture heightMap p)) h = false).
  { apply gtb_false. pose proof (Htop p). lra. }
  rewrite Hg. apply IH. lra.
Qed.

(** X13. Where the height map nowhere exceeds the height at the shaded point
    (a flat surface, or a fragment on the highest peak), no tap is
    occluded and the enabled, lit shadow factor is exactly 49/53. *)
Theorem shadow_without_occluder
    (tanLightVec : V3.t) (heightMap normalMap : sampler2D)
    (selfShadowTest bumpScale : R) (finalUV : V2.t)
    (Hlight : V3.dot tanLightVec tanLightVec <> 0)
    (Hon : 0 < selfShadowTest)
    (Hlit : 0 < V3.dot (Main.N heightMap normalMap bumpScale finalUV)
                       (Main.tanLightN tanLightVec))
    (Htop : forall p,
        V4.r (texture heightMap p) <= V4.r (texture heightMap finalUV)) :
  (forall dx dy,
      Main.pcfTap tanLightVec heightMap bumpScale finalUV dx dy = false)
  /\ Main.shadow tanLightVec heightMap normalMap selfShadowTest bumpScale
                 finalUV = 49 / 53.
Proof.
  destruct (numShadowSteps_range_aux tanLightVec Hlight) as [_ Hd].
  assert (Htap : forall dx dy,
             Main.pcfTap tanLightVec heightMap bumpScale finalUV dx dy
             = false).
  { intros dx dy. unfold Main.pcfTap. cbv zeta.
    apply shadowMarch_above with (top := V4.r (texture heightMap finalUV));
      auto; lra. }
  split; [exact Htap|].
  unfold Main.shadow.
  assert (H1 : gtb selfShadowTest 0 = true) by now apply gtb_true.
  assert (H2 : gtb (Main.NdotL tanLightVec heightMap normalMap bumpScale
                      finalUV) 0 = true).
  { apply gtb_true. unfold Main.NdotL.
    apply Rlt_le_trans with (2 := Rmax_l _ _). exact Hlit. }
  rewrite H1, H2. cbn [andb].
  destruct (pcfLoops_bounds tanLightVec heightMap bumpScale finalUV 1 1)
    as [Hs Hf].
  { intros dx dy. rewrite Htap. lra. }
  rewrite Hs. change (float 53) with 53. lra.
Qed.

Lemma flat_lit (c : R) :
  0 < V3.dot (Main.N (constSampler (grey c)) flatNormalMap 1 origin)
             (Main.tanLightN lightFromSide).
Proof.
  unfold Main.N. apply dot_normalize_pos.
  rewrite tanLightN_lightFromSide.
  assert (HM : 0 < V3.dot (Main.nM flatNormalMap origin)
                          (V3.mk (- (3 / 5)) 0 (4 / 5))).
  { unfold Main.nM, Main.decodeNormal. apply dot_normalize_pos.
    unfold V3.dot; simpl. lra. }
  assert (HH : 0 < V3.dot (Main.nH (constSampler (grey c)) 1 origin)
                          (V3.mk (- (3 / 5)) 0 (4 / 5))).
  { unfold Main.nH, computeHeightNormalTS. apply dot_normalize_pos.
    unfold V3.dot; simpl. lra. }
  unfold V3.dot, V3.mix in *; simpl in *. rewrite !mix_half. lra.
Qed.

Lemma shadow_without_occluder_witness :
  (forall dx dy,
      Main.pcfTap lightFromSide (constSampler (grey (1 / 2))) 1 origin dx dy
      = false)
  /\ Main.shadow lightFromSide (constSampler (grey (1 / 2))) flatNormalMap
                 1 1 origin = 49 / 53.
Proof.
  apply shadow_without_occluder.
  - unfold V3.dot; simpl. lra.
  - lra.
  - apply flat_lit.
  - intros p. simpl. lra.
Defined.

(** ** More on the ambient-occlusion block *)

Lemma fold_sum_zero (f : Z -> R) (l : list Z) (acc : R) :
  (forall i, f i = 0) ->
  fold_left (fun a i => a + f i) l acc = acc.
Proof.
  intros Hf. revert acc. induction l as [|i l IH]; intros acc; simpl; auto.
  rewrite IH, Hf. ring.
Qed.

(** X14. The flattening term bounds the factor from below: for a unit normal
    the AO factor is at least [aoMin + (1 - aoMin) * |N.z|], so a normal
    along the z axis switches the occlusion off ([ao = 1]). *)
Theorem ao_flatten_bound
    (heightMap normalMap : sampler2D) (finalUV : V2.t) (N : V3.t)
    (HN : V3.dot N N = 1) :
  aoMin + (1 - aoMin) * Rabs (V3.z N)
  <= Main.aoBlock heightMap normalMap finalUV N
  /\ (Rabs (V3.z N) = 1 ->
      Main.aoBlock heightMap normalMap finalUV N = 1).
Proof.
  unfold Main.aoBlock. cbv zeta.
  assert (Hs : 0 <= Main.sumAO heightMap normalMap finalUV N
                    / float AO_SAMPLES <= 1).
  { unfold Main.sumAO.
    pose proof (fold_sum_range
                  (Main.aoSample heightMap normalMap finalUV N)
                  (int_range 0 AO_SAMPLES) 0
                  (fun i => aoSample_range heightMap normalMap finalUV N i HN))
      as Hf.
    replace (INR (length (int_range 0 AO_SAMPLES))) with 8 in Hf
      by (simpl; ring).
    change (float AO_SAMPLES) with 8. lra. }
  assert (Hf : 0 <= Rabs (V3.z N) <= 1).
  { split; [apply Rabs_pos | apply unit_z_le_1, HN]. }
  set (a := Main.sumAO heightMap normalMap finalUV N / float AO_SAMPLES) in *.
  set (f := Rabs (V3.z N)) in *.
  unfold lerp, aoMin. split.
  - nra.
  - intros ->. field.
Qed.

Lemma ao_flatten_bound_witness :
  aoMin + (1 - aoMin) * Rabs (V3.z faceOn)
  <= Main.aoBlock (constSampler (grey (1 / 2))) flatNormalMap origin faceOn
  /\ (Rabs (V3.z faceOn) = 1 ->
      Main.aoBlock (constSampler (grey (1 / 2))) flatNormalMap origin faceOn
      = 1).
Proof.
  apply ao_flatten_bound. unfold V3.dot; simpl; ring.
Defined.

(** X15. In a pit, where every point at distance [AO_RADIUS] from the shaded
    point is at least 0.03 higher than it, all eight samples contribute
    nothing and the AO factor is exactly [aoMin + (1 - aoMin) * |N.z|],
    for any normal. *)
Theorem ao_in_pit
    (heightMap normalMap : sampler2D) (finalUV : V2.t) (N : V3.t)
    (Hpit : forall p,
        (V2.x p - V2.x finalUV) * (V2.x p - V2.x finalUV)
        + (V2.y p - V2.y finalUV) * (V2.y p - V2.y finalUV)
        = AO_RADIUS * AO_RADIUS ->
        V4.r (texture heightMap finalUV) + 3 / 100
        <= V4.r (texture heightMap p)) :
  Main.sumAO heightMap normalMap finalUV N = 0
  /\ Main.aoBlock heightMap normalMap finalUV N
     = aoMin + (1 - aoMin) * Rabs (V3.z N).
Proof.
  assert (Hs : Main.sumAO heightMap normalMap finalUV N = 0).
  { unfold Main.sumAO. apply fold_sum_zero. intros i.
    unfold Main.aoSample. cbv zeta.
    set (ang := 62831853 / 10000000 * float i / float AO_SAMPLES).
    set (uvS := V2.add finalUV (V2.scale (V2.mk (cos ang) (sin ang))
                                         AO_RADIUS)).
    assert (Hh : Main.hVal heightMap finalUV + 3 / 100
                 <= V4.r (texture heightMap uvS)).
    { apply Hpit. unfold uvS, V2.add, V2.scale; simpl.
      pose proof (sin2_cos2 ang) as Hsc. unfold Rsqr in Hsc.
      replace (V2.x finalUV + cos ang * AO_RADIUS - V2.x finalUV)
        with (cos ang * AO_RADIUS) by ring.
      replace (V2.y finalUV + sin ang * AO_RADIUS - V2.y finalUV)
        with (sin ang * AO_RADIUS) by ring.
      replace (cos ang * AO_RADIUS * (cos ang * AO_RADIUS)
               + sin ang * AO_RADIUS * (sin ang * AO_RADIUS))
        with ((sin ang * sin ang + cos ang * cos ang)
              * (AO_RADIUS * AO_RADIUS)) by ring.
      rewrite Hsc. ring. }
    unfold saturate. rewrite clamp_below; [ring | lra |].
    unfold Main.hVal in *. lra. }
  split; [exact Hs|].
  unfold Main.aoBlock. cbv zeta. rewrite Hs.
  change (float AO_SAMPLES) with 8. unfold lerp, aoMin. field.
Qed.

Lemma ao_in_pit_witness :
  Main.sumAO pitHeightMap flatNormalMap pitCentre faceOn = 0
  /\ Main.aoBlock pitHeightMap flatNormalMap pitCentre faceOn
     = aoMin + (1 - aoMin) * Rabs (V3.z faceOn).
Proof.
  apply ao_in_pit. intros p Hp.
  rewrite (pit_height_inside pitCentre in_pit_centre).
  destruct (in_pit p) eqn:Hin.
  - exfalso. apply in_pit_true in Hin.
    unfold pitCentre, AO_RADIUS in Hp. simpl in Hp.
    assert (H1 : - (1 / 2048) <= V2.x p - 1 / 2048 <= 1 / 2048) by lra.
    assert (H2 : - (1 / 2048) <= V2.y p - 1 / 2048 <= 1 / 2048) by lra.
    nra.
  - rewrite (pit_height_outside p Hin). lra.
Defined.

(** ** The lighting terms *)

Lemma powf_unit_range (x y : R) :
  0 <= x <= 1 -> 0 < y -> 0 <= powf x y <= 1.
Proof.
  intros [H0 H1] Hy. unfold powf.
  destruct (Req_dec_T x 0) as [|Hn]; [lra|].
  unfold Rpower. split; [left; apply exp_pos|].
  assert (Hl : ln x <= 0).
  { destruct (Req_dec x 1) as [-> | Hx1]; [rewrite ln_1; lra|].
    left. rewrite <- ln_1. apply ln_increasing; lra. }
  destruct (Req_dec (y * ln x) 0) as [-> | Hne]; [rewrite exp_0; lra|].
  left. rewrite <- exp_0. apply exp_increasing. nra.
Qed.

Lemma Rmax_0_range (d : R) : d <= 1 -> 0 <= Rmax d 0 <= 1.
Proof. intros H. unfold Rmax. destruct (Rle_dec d 0); lra. Qed.

(** X16. For a nonzero light vector and two normals that do not cancel, the
    light direction stays a unit vector after the handedness flip of its
    x component, the blended normal is a unit vector, and the Lambert
    term [NdotL] lies in [0, 1]. *)
Theorem lambert_term_range
    (tanLightVec : V3.t) (heightMap normalMap : sampler2D)
    (bumpScale : R) (finalUV : V2.t)
    (Hlight : V3.dot tanLightVec tanLightVec <> 0)
    (Hblend : V3.add (Main.nM normalMap finalUV)
                     (Main.nH heightMap bumpScale finalUV) <> V3.mk 0 0 0) :
  V3.dot (Main.tanLightN tanLightVec) (Main.tanLightN tanLightVec) = 1
  /\ V3.x (Main.tanLightN tanLightVec) = - V3.x (V3.normalize tanLightVec)
  /\ V3.dot (Main.N heightMap normalMap bumpScale finalUV)
            (Main.N heightMap normalMap bumpScale finalUV) = 1
  /\ 0 <= Main.NdotL tanLightVec heightMap normalMap bumpScale finalUV <= 1.
Proof.
  assert (HL : V3.dot (Main.tanLightN tanLightVec)
                      (Main.tanLightN tanLightVec) = 1).
  { pose proof (normalize_unit tanLightVec Hlight) as Hu.
    unfold Main.tanLightN. cbv zeta. unfold V3.set_x, V3.dot in *.
    simpl in *. lra. }
  assert (HN : V3.dot (Main.N heightMap normalMap bumpScale finalUV)
                      (Main.N heightMap normalMap bumpScale finalUV) = 1).
  { unfold Main.N. rewrite normalize_mix_half by exact Hblend.
    apply normalize_unit, nonzero_dot, Hblend. }
  repeat split; auto.
  - unfold Main.NdotL. apply Rmax_r.
  - unfold Main.NdotL. apply Rmax_0_range. apply dot_le_1; auto. lra.
Qed.

Lemma flat_blend_nonzero (c : R) :
  V3.add (Main.nM flatNormalMap origin)
         (Main.nH (constSampler (grey c)) 1 origin) <> V3.mk 0 0 0.
Proof.
  intros H.
  assert (Hz : V3.z (V3.add (Main.nM flatNormalMap origin)
                            (Main.nH (constSampler (grey c)) 1 origin)) = 0)
    by (rewrite H; reflexivity).
  assert (H1 : 0 < V3.z (Main.nM flatNormalMap origin)).
  { apply normalize_z_pos. simpl. lra. }
  assert (H2 : 0 < V3.z (Main.nH (constSampler (grey c)) 1 origin)).
  { apply normalize_z_pos. simpl. lra. }
  unfold V3.add in Hz; simpl in Hz. simpl in H1, H2. lra.
Qed.

Lemma lambert_term_range_witness :
  0 <= Main.NdotL lightFromSide (constSampler (grey (1 / 2))) flatNormalMap
                  1 origin <= 1.
Proof.
  apply (lambert_term_range lightFromSide (constSampler (grey (1 / 2)))
           flatNormalMap 1 origin).
  - unfold V3.dot; simpl. lra.
  - apply flat_blend_nonzero.
Defined.

(** X17. For a height in [0, 1] the specular boost lies in [0.9, 2.5] and the
    exponent in [32, 96]; if moreover the two normals do not cancel and
    the light is not opposite to the eye, the specular term lies in
    [0, 1.5]: it can exceed 1. *)
Theorem specular_range
    (tanEyeVec tanLightVec : V3.t) (heightMap normalMap : sampler2D)
    (bumpScale : R) (finalUV : V2.t)
    (Hh : 0 <= V4.r (texture heightMap finalUV) <= 1)
    (Hblend : V3.add (Main.nM normalMap finalUV)
                     (Main.nH heightMap bumpScale finalUV) <> V3.mk 0 0 0)
    (Hhalf : V3.add (Main.tanLightN tanLightVec) (Main.tanEyeN tanEyeVec)
             <> V3.mk 0 0 0) :
  9 / 10 <= Main.boost heightMap finalUV <= 25 / 10
  /\ 32 <= Main.expo heightMap finalUV <= 96
  /\ 0 <= Main.specular tanEyeVec tanLightVec heightMap normalMap bumpScale
                        finalUV <= 3 / 2.
Proof.
  assert (Hp : 0 <= powf (Main.hVal heightMap finalUV) (25 / 10) <= 1).
  { apply powf_unit_range; [exact Hh | lra]. }
  assert (Hb : 9 / 10 <= Main.boost heightMap finalUV <= 25 / 10).
  { unfold Main.boost, lerp. lra. }
  assert (He : 32 <= Main.expo heightMap finalUV <= 96).
  { unfold Main.expo, lerp, Main.hVal. lra. }
  split; [exact Hb|]. split; [exact He|].
  assert (HN : V3.dot (Main.N heightMap normalMap bumpScale finalUV)
                      (Main.N heightMap normalMap bumpScale finalUV) = 1).
  { unfold Main.N. rewrite normalize_mix_half by exact Hblend.
    apply normalize_unit, nonzero_dot, Hblend. }
  assert (HH : V3.dot (Main.halfVec tanEyeVec tanLightVec)
                      (Main.halfVec tanEyeVec tanLightVec) = 1).
  { unfold Main.halfVec. apply normalize_unit, nonzero_dot, Hhalf. }
  assert (Hd : 0 <= Main.NdotH tanEyeVec tanLightVec heightMap normalMap
                      bumpScale finalUV <= 1).
  { unfold Main.NdotH. apply Rmax_0_range. apply dot_le_1; auto. lra. }
  assert (Hq : 0 <= powf (Main.NdotH tanEyeVec tanLightVec heightMap
                            normalMap bumpScale finalUV)
                         (Main.expo heightMap finalUV) <= 1).
  { apply powf_unit_range; [exact Hd | lra]. }
  unfold Main.specular, baseSpecularCoeff. nra.
Qed.

Lemma specular_range_witness :
  0 <= Main.specular faceOn lightFromSide (constSampler (grey (1 / 2)))
                     flatNormalMap 1 origin <= 3 / 2.
Proof.
  apply (specular_range faceOn lightFromSide (constSampler (grey (1 / 2)))
           flatNormalMap 1 origin).
  - simpl. lra.
  - apply flat_blend_nonzero.
  - rewrite tanLightN_lightFromSide, tanEyeN_faceOn.
    unfold V3.add, faceOn; simpl. intros H. injection H. intros. lra.
Defined.

(* ================================================================== *)
(** * Properties of the host code *)

(** ** [clamp] and the light position *)

Lemma hostClamp_bounds (v lo hi : R) :
  lo <= hi -> lo <= hostClamp v lo hi <= hi.
Proof.
  intros Hle. unfold hostClamp, gtb, ltb.
  destruct (Rlt_dec v lo), (Rlt_dec hi v); lra.
Qed.

Lemma hostClamp_inside (v lo hi : R) :
  lo <= v <= hi -> hostClamp v lo hi = v.
Proof.
  intros H. unfold hostClamp, gtb, ltb.
  destruct (Rlt_dec v lo), (Rlt_dec hi v); lra.
Qed.

(** X19. For [lo <= hi] the host's [clamp] returns a value in [lo, hi], leaves
    a value inside the interval unchanged and agrees with GLSL's
    [clamp]. *)
Theorem hostClamp_range (v lo hi : R) (Hle : lo <= hi) :
  lo <= hostClamp v lo hi <= hi
  /\ (lo <= v <= hi -> hostClamp v lo hi = v)
  /\ hostClamp v lo hi = clamp v lo hi.
Proof.
  unfold hostClamp, gtb, ltb, clamp, Rmin, Rmax.
  destruct (Rlt_dec v lo), (Rlt_dec hi v), (Rle_dec v lo);
    try destruct (Rle_dec lo hi); try destruct (Rle_dec v hi);
    repeat split; intros; lra.
Qed.

Lemma hostClamp_range_witness :
  2 <= hostClamp 1 2 20 <= 20.
Proof.
  apply (hostClamp_range 1 2 20). lra.
Defined.

(** X20. Whatever the mouse did to the light, after the clamp of
    [Handle_Display] it lies in the box [-10, 10] x [-10, 10] x [2, 20];
    a position inside the box is left alone, and clamping twice changes
    nothing more. *)
Theorem clampLight_box (position : farray) :
  -10 <= clampLight position 0%nat <= 10
  /\ -10 <= clampLight position 1%nat <= 10
  /\ 2 <= clampLight position 2%nat <= 20
  /\ (forall i, (3 <= i)%nat -> clampLight position i = position i)
  /\ (-10 <= position 0%nat <= 10 -> -10 <= position 1%nat <= 10 ->
      2 <= position 2%nat <= 20 ->
      forall i, clampLight position i = position i)
  /\ (forall i, clampLight (clampLight position) i = clampLight position i).
Proof.
  assert (Hx : forall v, -10 <= hostClamp v (-10) 10 <= 10)
    by (intros v; apply hostClamp_bounds; lra).
  assert (Hz : forall v, 2 <= hostClamp v 2 20 <= 20)
    by (intros v; apply hostClamp_bounds; lra).
  assert (H0 : clampLight position 0%nat
               = hostClamp (position 0%nat) (-10) 10) by reflexivity.
  assert (H1 : clampLight position 1%nat
               = hostClamp (position 1%nat) (-10) 10) by reflexivity.
  assert (H2 : clampLight position 2%nat
               = hostClamp (position 2%nat) 2 20) by reflexivity.
  assert (H3 : forall i, (3 <= i)%nat -> clampLight position i = position i).
  { intros i Hi. do 3 (destruct i as [|i]; [lia|]). reflexivity. }
  assert (Hid : forall q : farray,
             -10 <= q 0%nat <= 10 -> -10 <= q 1%nat <= 10 ->
             2 <= q 2%nat <= 20 -> forall i, clampLight q i = q i).
  { intros q A B C i.
    destruct i as [|[|[|i]]]; try reflexivity.
    - change (hostClamp (q 0%nat) (-10) 10 = q 0%nat).
      apply hostClamp_inside; lra.
    - change (hostClamp (q 1%nat) (-10) 10 = q 1%nat).
      apply hostClamp_inside; lra.
    - change (hostClamp (q 2%nat) 2 20 = q 2%nat).
      apply hostClamp_inside; lra. }
  rewrite H0, H1, H2.
  repeat split; try apply Hx; try apply Hz; auto.
  intros i. apply Hid; [rewrite H0 | rewrite H1 | rewrite H2];
    try apply Hx; apply Hz.
Qed.

(** ** The split screen *)

(** X21. For a window of non-negative size the two square viewports are
    side by side and inside the window: the left one ends where the right
    one starts, neither starts before column 0 or ends after the last
    column, and their side is at most the window height. *)
Theorem split_screen_viewports
    (screenWidth screenHeight : Z)
    (Hw : (0 <= screenWidth)%Z) (Hh : (0 <= screenHeight)%Z) :
  (0 <= squareW screenWidth screenHeight <= screenHeight)%Z
  /\ (0 <= leftX screenWidth screenHeight)%Z
  /\ (leftX screenWidth screenHeight + squareW screenWidth screenHeight
      = rightX screenWidth)%Z
  /\ (rightX screenWidth + squareW screenWidth screenHeight
      <= screenWidth)%Z.
Proof.
  unfold leftX, rightX, squareW, halfW.
  rewrite Z.quot_div_nonneg by lia.
  pose proof (Z.div_pos screenWidth 2 Hw ltac:(lia)) as H0.
  assert (H2 : (2 * (screenWidth / 2) <= screenWidth)%Z)
    by (apply Z.mul_div_le; lia).
  destruct (Z.ltb_spec screenHeight (screenWidth / 2)); lia.
Qed.

Lemma split_screen_viewports_witness :
  (0 <= squareW 1400 700 <= 700)%Z
  /\ (0 <= leftX 1400 700)%Z
  /\ (leftX 1400 700 + squareW 1400 700 = rightX 1400)%Z
  /\ (rightX 1400 + squareW 1400 700 <= 1400)%Z.
Proof.
  apply split_screen_viewports; lia.
Defined.

Lemma clampLight_box_witness :
  2 <= clampLight (of_list [0; 0; 1]) 2%nat <= 20.
Proof.
  exact (proj1 (proj2 (proj2 (clampLight_box (of_list [0; 0; 1]))))).
Defined.

(** ** [multiply4x4] and [invertRigid] *)

Ltac eval_matrix :=
  cbv [multiply4x4 invertRigid identity4 lookAtMatrix of_list nth
       fold_left seq upd Nat.eqb Nat.add Nat.mul].

(** Element [(r, c)] of the result is the dot product of row [r] of [A]
    and column [c] of [B], whatever [out] held before; elements from
    index 16 on are not written. *)
Lemma multiply4x4_entry (A B out0 : farray) (r c : nat) :
  (r < 4)%nat -> (c < 4)%nat ->
  multiply4x4 A B out0 (c * 4 + r)%nat
  = A r * B (c * 4)%nat + A (4 + r)%nat * B (c * 4 + 1)%nat
    + A (8 + r)%nat * B (c * 4 + 2)%nat + A (12 + r)%nat * B (c * 4 + 3)%nat.
Proof.
  intros Hr Hc.
  do 4 (destruct r as [|r]; [do 4 (destruct c as [|c];
                                   [eval_matrix; ring|]); lia|]).
  lia.
Qed.

(** X22. [multiply4x4] computes the matrix product: it has the identity as
    neutral element on both sides and is associative (on the 16
    elements, whatever the output arrays held before). *)
Theorem multiply4x4_monoid (A B C o1 o2 o3 o4 : farray) (i : nat) :
  (i < 16)%nat ->
  multiply4x4 identity4 A o1 i = A i
  /\ multiply4x4 A identity4 o1 i = A i
  /\ multiply4x4 (multiply4x4 A B o1) C o2 i
     = multiply4x4 A (multiply4x4 B C o3) o4 i.
Proof.
  intros Hi.
  do 16 (destruct i as [|i]; [eval_matrix; repeat split; ring|]). lia.
Qed.

Lemma multiply4x4_monoid_witness :
  multiply4x4 identity4 lookAtMatrix identity4 14%nat = lookAtMatrix 14%nat.
Proof.
  apply (multiply4x4_monoid lookAtMatrix identity4 identity4 identity4
           identity4 identity4 identity4 14%nat).
  repeat constructor.
Defined.

(** X23. [invertRigid] inverts rigid transforms: the product of its result
    with the matrix, on either side, is the identity. *)
Theorem invertRigid_inverse (M o1 o2 : farray) (i : nat)
    (HM : rigid M) (Hi : (i < 16)%nat) :
  multiply4x4 (invertRigid M o1) M o2 i = identity4 i
  /\ multiply4x4 M (invertRigid M o1) o2 i = identity4 i.
Proof.
  destruct HM as (H3 & H7 & H11 & H15 & C00 & C11 & C22 & C01 & C02 & C12
                  & R00 & R11 & R22 & R01 & R02 & R12).
  do 16 (destruct i as [|i];
         [eval_matrix; rewrite ?H3, ?H7, ?H11, ?H15; split; nsatz|]).
  lia.
Qed.

Lemma identity4_rigid : rigid identity4.
Proof. unfold rigid. eval_matrix. repeat split; ring. Qed.

Lemma lookAtMatrix_rigid : rigid lookAtMatrix.
Proof. unfold rigid. eval_matrix. repeat split; ring. Qed.

Lemma invertRigid_inverse_witness :
  multiply4x4 (invertRigid lookAtMatrix identity4) lookAtMatrix identity4
    14%nat = identity4 14%nat.
Proof.
  apply (invertRigid_inverse lookAtMatrix identity4 identity4 14).
  - exact lookAtMatrix_rigid.
  - repeat constructor.
Defined.

(** X24. On rigid transforms [invertRigid] is an involution, and its result is
    rigid again. *)
Theorem invertRigid_involutive (M o1 o2 : farray) (HM : rigid M) :
  rigid (invertRigid M o1)
  /\ forall i, (i < 16)%nat -> invertRigid (invertRigid M o1) o2 i = M i.
Proof.
  destruct HM as (H3 & H7 & H11 & H15 & C00 & C11 & C22 & C01 & C02 & C12
                  & R00 & R11 & R22 & R01 & R02 & R12).
  split.
  - unfold rigid. eval_matrix. repeat split; try reflexivity; lra.
  - intros i Hi.
    do 16 (destruct i as [|i];
           [eval_matrix; rewrite ?H3, ?H7, ?H11, ?H15;
            try reflexivity; nsatz|]).
    lia.
Qed.

Lemma invertRigid_involutive_witness :
  rigid (invertRigid lookAtMatrix identity4)
  /\ forall i, (i < 16)%nat ->
       invertRigid (invertRigid lookAtMatrix identity4) identity4 i
       = lookAtMatrix i.
Proof.
  apply invertRigid_involutive. exact lookAtMatrix_rigid.
Defined.

(** ** The uniforms the host binds *)

(** Whatever the feature flags, the bump scale the host uploads is 0.05
    or 0.125, never zero; with [selfShadowing] off it uploads
    [selfShadowTest = 0] and the steep shader's shadow factor is 1 for
    every fragment; with it on, every fragment facing the light gets a
    factor of at most 49/53. *)
Theorem host_uniforms_and_shadow
    (bumpy : bool) (tanLightVec : V3.t) (heightMap normalMap : sampler2D)
    (finalUV : V2.t) :
  0 < bumpScaleUniform bumpy
  /\ Main.shadow tanLightVec heightMap normalMap (selfShadowUniform false)
       (bumpScaleUniform bumpy) finalUV = 1
  /\ (0 < V3.dot (Main.N heightMap normalMap (bumpScaleUniform bumpy) finalUV)
                 (Main.tanLightN tanLightVec) ->
      Main.shadow tanLightVec heightMap normalMap (selfShadowUniform true)
        (bumpScaleUniform bumpy) finalUV <= 49 / 53).
Proof.
  split; [destruct bumpy; unfold bumpScaleUniform; lra|]. split.
  - unfold Main.shadow, selfShadowUniform.
    assert (Hg : gtb 0 0 = false) by (apply gtb_false; lra).
    now rewrite Hg.
  - intros Hlit. unfold Main.shadow, selfShadowUniform.
    assert (H1 : gtb 1 0 = true) by (apply gtb_true; lra).
    assert (H2 : gtb (Main.NdotL tanLightVec heightMap normalMap
                        (bumpScaleUniform bumpy) finalUV) 0 = true).
    { apply gtb_true. unfold Main.NdotL.
      apply Rlt_le_trans with (2 := Rmax_l _ _). exact Hlit. }
    rewrite H1, H2. cbn [andb].
    destruct (pcfLoops_bounds tanLightVec heightMap (bumpScaleUniform bumpy)
                finalUV shadowMin 1) as [Hs Hf].
    { intros dx dy. destruct (Main.pcfTap _ _ _ _ dx dy);
        unfold shadowMin; lra. }
    rewrite Hs. change (float 53) with 53. lra.
Qed.

Lemma host_uniforms_and_shadow_witness :
  Main.shadow lightFromSide pitHeightMap flatNormalMap
    (selfShadowUniform false) (bumpScaleUniform true) pitCentre = 1.
Proof.
  exact (proj1 (proj2 (host_uniforms_and_shadow true lightFromSide
                         pitHeightMap flatNormalMap pitCentre))).
Defined.

(* ================================================================== *)
(** * Properties of the vertex shader *)

Lemma unit_components (v : V3.t) :
  V3.dot v v = 1 ->
  Rabs (V3.x v) <= 1 /\ Rabs (V3.y v) <= 1 /\ Rabs (V3.z v) <= 1.
Proof.
  unfold V3.dot. intros H. repeat split; apply Rabs_le; nra.
Qed.

(** X25. With a nonzero vertex normal perpendicular to the tangent [(1,0,0)]
    the frame [TBN] is orthonormal: it maps every vector to one of the
    same length, so the tangent-space eye and light vectors are unit
    vectors whenever the eye and the light are not at the vertex, and
    the fragment shader's [normalize(tanEyeVec)] returns [tanEyeVec]. *)
Theorem vertex_frame_orthonormal
    (Position : V4.t) (Normal : V3.t) (ModelViewI : farray)
    (lightPosition : V3.t)
    (Hperp : V3.x Normal = 0)
    (Hnormal : V3.dot Normal Normal <> 0)
    (Heye : V3.dot (V3_sub (Vertex.eyePosition ModelViewI) (V4.rgb Position))
                   (V3_sub (Vertex.eyePosition ModelViewI) (V4.rgb Position))
            <> 0)
    (Hlight : V3.dot (V3_sub (Vertex.objectLightPosition ModelViewI
                                lightPosition) (V4.rgb Position))
                     (V3_sub (Vertex.objectLightPosition ModelViewI
                                lightPosition) (V4.rgb Position))
              <> 0) :
  (forall v : V3.t,
      V3.dot (mat3_mul_vec Vertex.tangent (Vertex.binormal Normal)
                           (Vertex.normal Normal) v)
             (mat3_mul_vec Vertex.tangent (Vertex.binormal Normal)
                           (Vertex.normal Normal) v)
      = V3.dot v v)
  /\ V3.dot (Vertex.tanEyeVec Position Normal ModelViewI)
            (Vertex.tanEyeVec Position Normal ModelViewI) = 1
  /\ V3.dot (Vertex.tanLightVec Position Normal ModelViewI lightPosition)
            (Vertex.tanLightVec Position Normal ModelViewI lightPosition) = 1
  /\ Main.tanEyeN (Vertex.tanEyeVec Position Normal ModelViewI)
     = Vertex.tanEyeVec Position Normal ModelViewI.
Proof.
  assert (Hn : V3.dot (Vertex.normal Normal) (Vertex.normal Normal) = 1)
    by (apply normalize_unit, Hnormal).
  assert (Hx : V3.x (Vertex.normal Normal) = 0).
  { unfold Vertex.normal, V3.normalize, V3.div; simpl. rewrite Hperp.
    unfold Rdiv. ring. }
  assert (Hiso : forall v : V3.t,
             V3.dot (mat3_mul_vec Vertex.tangent (Vertex.binormal Normal)
                                  (Vertex.normal Normal) v)
                    (mat3_mul_vec Vertex.tangent (Vertex.binormal Normal)
                                  (Vertex.normal Normal) v)
             = V3.dot v v).
  { intros v. unfold Vertex.binormal, Vertex.tangent, cross, mat3_mul_vec,
                V3.add, V3.scale.
    set (n := Vertex.normal Normal) in *. clearbody n.
    clear Heye Hlight Hnormal Hperp.
    destruct n as [nx ny nz], v as [vx vy vz].
    unfold V3.dot in *. simpl in *. subst nx. nsatz. }
  assert (He : V3.dot (Vertex.tanEyeVec Position Normal ModelViewI)
                      (Vertex.tanEyeVec Position Normal ModelViewI) = 1).
  { unfold Vertex.tanEyeVec. rewrite Hiso. unfold Vertex.eyeVec.
    now apply normalize_unit. }
  repeat split; auto.
  - unfold Vertex.tanLightVec. rewrite Hiso. unfold Vertex.lightVec.
    now apply normalize_unit.
  - unfold Main.tanEyeN. now apply normalize_unit_id.
Qed.

Lemma eyePosition_identity : Vertex.eyePosition identity4 = V3.mk 0 0 0.
Proof.
  unfold Vertex.eyePosition, dehomogenize, mat4_mul_vec. eval_matrix. simpl.
  f_equal; field.
Qed.

Lemma objectLightPosition_identity (l : V3.t) :
  Vertex.objectLightPosition identity4 l = l.
Proof.
  unfold Vertex.objectLightPosition, dehomogenize, mat4_mul_vec.
  eval_matrix. destruct l; simpl. f_equal; field.
Qed.

Lemma vertex_frame_orthonormal_witness :
  V3.dot (Vertex.tanEyeVec (V4.mk (-7) (-7) 4 1) (V3.mk 0 0 1) identity4)
         (Vertex.tanEyeVec (V4.mk (-7) (-7) 4 1) (V3.mk 0 0 1) identity4)
  = 1.
Proof.
  apply (vertex_frame_orthonormal (V4.mk (-7) (-7) 4 1) (V3.mk 0 0 1)
           identity4 (V3.mk 0 0 8)).
  - reflexivity.
  - unfold V3.dot; simpl. lra.
  - rewrite eyePosition_identity. unfold V3.dot, V3_sub; simpl. lra.
  - rewrite objectLightPosition_identity. unfold V3.dot, V3_sub; simpl. lra.
Defined.

(** X26. For the normal of the demo's quad, any positive multiple of
    [(0, 0, 1)], the frame is the identity: the tangent-space eye and
    light vectors are the object-space ones. *)
Theorem vertex_quad_frame
    (Position : V4.t) (k : R) (ModelViewI : farray) (lightPosition : V3.t)
    (Hk : 0 < k) :
  Vertex.normal (V3.mk 0 0 k) = V3.mk 0 0 1
  /\ Vertex.binormal (V3.mk 0 0 k) = V3.mk 0 1 0
  /\ Vertex.tanEyeVec Position (V3.mk 0 0 k) ModelViewI
     = Vertex.eyeVec Position ModelViewI
  /\ Vertex.tanLightVec Position (V3.mk 0 0 k) ModelViewI lightPosition
     = Vertex.lightVec Position ModelViewI lightPosition.
Proof.
  assert (Hn : Vertex.normal (V3.mk 0 0 k) = V3.mk 0 0 1).
  { unfold Vertex.normal, V3.normalize, V3.length, V3.dot, V3.div; simpl.
    replace (0 * 0 + 0 * 0 + k * k) with (k * k) by ring.
    rewrite sqrt_square by lra. f_equal; field; lra. }
  assert (Hb : Vertex.binormal (V3.mk 0 0 k) = V3.mk 0 1 0).
  { unfold Vertex.binormal. rewrite Hn.
    unfold cross, Vertex.tangent; simpl. f_equal; ring. }
  assert (Hid : forall v,
             mat3_mul_vec Vertex.tangent (V3.mk 0 1 0) (V3.mk 0 0 1) v = v).
  { intros [a b c]. unfold mat3_mul_vec, Vertex.tangent, V3.add, V3.scale;
      simpl. f_equal; ring. }
  repeat split; auto.
  - unfold Vertex.tanEyeVec. rewrite Hn, Hb. apply Hid.
  - unfold Vertex.tanLightVec. rewrite Hn, Hb. apply Hid.
Qed.

Lemma vertex_quad_frame_witness :
  Vertex.tanEyeVec (V4.mk (-7) (-7) 4 1) (V3.mk 0 0 1) identity4
  = Vertex.eyeVec (V4.mk (-7) (-7) 4 1) identity4.
Proof.
  apply (vertex_quad_frame (V4.mk (-7) (-7) 4 1) 1 identity4 (V3.mk 0 0 8)).
  lra.
Defined.

(** X27. With the matrix the host uploads, [ModelViewI = invertRigid(MV)], the
    division by [w] divides by 1 and the eye position the vertex shader
    computes is the translation column of the inverse; for a rigid [MV]
    it is the point that [MV] maps to the camera origin. *)
Theorem vertex_eye_position (MV out0 : farray) :
  Vertex.eyePosition (invertRigid MV out0)
  = V3.mk (- (MV 0%nat * MV 12%nat + MV 1%nat * MV 13%nat
              + MV 2%nat * MV 14%nat))
          (- (MV 4%nat * MV 12%nat + MV 5%nat * MV 13%nat
              + MV 6%nat * MV 14%nat))
          (- (MV 8%nat * MV 12%nat + MV 9%nat * MV 13%nat
              + MV 10%nat * MV 14%nat))
  /\ (rigid MV ->
      mat4_mul_vec MV
        (V4.of_rgb (Vertex.eyePosition (invertRigid MV out0)) 1)
      = V4.mk 0 0 0 1).
Proof.
  assert (He : Vertex.eyePosition (invertRigid MV out0)
               = V3.mk (- (MV 0%nat * MV 12%nat + MV 1%nat * MV 13%nat
                           + MV 2%nat * MV 14%nat))
                       (- (MV 4%nat * MV 12%nat + MV 5%nat * MV 13%nat
                           + MV 6%nat * MV 14%nat))
                       (- (MV 8%nat * MV 12%nat + MV 9%nat * MV 13%nat
                           + MV 10%nat * MV 14%nat))).
  { unfold Vertex.eyePosition, dehomogenize, mat4_mul_vec. eval_matrix.
    simpl. f_equal; field. }
  split; [exact He|].
  intros (H3 & H7 & H11 & H15 & C00 & C11 & C22 & C01 & C02 & C12
          & R00 & R11 & R22 & R01 & R02 & R12).
  rewrite He. unfold mat4_mul_vec, V4.of_rgb; simpl.
  rewrite H3, H7, H11, H15. f_equal; nsatz.
Qed.

Lemma vertex_eye_position_witness :
  mat4_mul_vec lookAtMatrix
    (V4.of_rgb (Vertex.eyePosition (invertRigid lookAtMatrix identity4)) 1)
  = V4.mk 0 0 0 1.
Proof.
  apply (proj2 (vertex_eye_position lookAtMatrix identity4)).
  exact lookAtMatrix_rigid.
Defined.

(* ================================================================== *)
(** * Properties of the basic parallax shader *)

(** X28. For a height in [0, 1], a non-negative bump scale and a nonzero eye
    vector, the single-sample offset is at most [bumpScale] in each UV
    coordinate. *)
Theorem basic_displacement_bounded
    (FragUV : V2.t) (tanEyeVec : V3.t) (heightMap : sampler2D)
    (bumpScale parralax : R)
    (Hh : 0 <= V4.r (texture heightMap FragUV) <= 1)
    (Hb : 0 <= bumpScale)
    (Heye : V3.dot tanEyeVec tanEyeVec <> 0) :
  Rabs (Basic.height FragUV heightMap bumpScale) <= bumpScale
  /\ Rabs (V2.x (Basic.texUV FragUV tanEyeVec heightMap bumpScale parralax)
           - V2.x FragUV) <= bumpScale
  /\ Rabs (V2.y (Basic.texUV FragUV tanEyeVec heightMap bumpScale parralax)
           - V2.y FragUV) <= bumpScale.
Proof.
  assert (Hheight : Rabs (Basic.height FragUV heightMap bumpScale)
                    <= bumpScale).
  { unfold Basic.height. cbv zeta. apply Rabs_le. nra. }
  split; [exact Hheight|].
  destruct (unit_components (Basic.tanEyeVecN tanEyeVec)
              (normalize_unit tanEyeVec Heye)) as (Hx & Hy & _).
  assert (Hprod : forall a, Rabs a <= 1 ->
             Rabs (a * Basic.height FragUV heightMap bumpScale)
             <= bumpScale).
  { intros a Ha. rewrite Rabs_mult.
    pose proof (Rabs_pos a).
    pose proof (Rabs_pos (Basic.height FragUV heightMap bumpScale)). nra. }
  unfold Basic.texUV.
  set (n := Basic.tanEyeVecN tanEyeVec) in *. clearbody n.
  set (h := Basic.height FragUV heightMap bumpScale) in *. clearbody h.
  destruct (gtb parralax 0).
  - unfold V2.add, V2.scale, V3.yx; simpl. split.
    + replace (V2.x FragUV + V3.y n * h - V2.x FragUV) with (V3.y n * h)
        by ring.
      now apply Hprod.
    + replace (V2.y FragUV + V3.x n * h - V2.y FragUV) with (V3.x n * h)
        by ring.
      now apply Hprod.
  - split; (replace (_ - _) with 0 by ring); rewrite Rabs_R0; lra.
Qed.

Lemma basic_displacement_bounded_witness :
  Rabs (V2.x (Basic.texUV origin lightFromSide (constSampler (grey 1))
                (1 / 8) 1) - V2.x origin) <= 1 / 8.
Proof.
  apply (basic_displacement_bounded origin lightFromSide
           (constSampler (grey 1)) (1 / 8) 1).
  - simpl. lra.
  - lra.
  - unfold V3.dot; simpl. lra.
Defined.

(** X29. The basic shader leaves the UV unchanged when parallax is switched
    off ([parralax <= 0]) and at mid-grey texels (height 0.5), where the
    remapped height is zero. *)
Theorem basic_no_displacement
    (FragUV : V2.t) (tanEyeVec : V3.t) (heightMap : sampler2D)
    (bumpScale parralax : R)
    (H : parralax <= 0 \/ V4.r (texture heightMap FragUV) = 1 / 2) :
  Basic.texUV FragUV tanEyeVec heightMap bumpScale parralax = FragUV.
Proof.
  unfold Basic.texUV. destruct H as [H | H].
  - assert (Hg : gtb parralax 0 = false) by (apply gtb_false; lra).
    now rewrite Hg.
  - destruct (gtb parralax 0); auto.
    assert (Hz : Basic.height FragUV heightMap bumpScale = 0).
    { unfold Basic.height. cbv zeta. rewrite H. field. }
    rewrite Hz. destruct FragUV; unfold V2.add, V2.scale; simpl.
    f_equal; ring.
Qed.

Lemma basic_no_displacement_witness :
  Basic.texUV (V2.mk 1 2) lightFromSide (constSampler (grey (1 / 2))) 1 1
  = V2.mk 1 2.
Proof.
  apply basic_no_displacement. right. reflexivity.
Defined.

(** The two fragment shaders agree on their conventions: the basic
    shader's [(rgb - 0.5) * 2] decodes the normal map to the same vector
    as the steep shader's [rgb * 2 - 1], and both flip the x component of
    the normalized light vector. *)
Theorem basic_and_steep_conventions
    (FragUV : V2.t) (tanEyeVec tanLightVec : V3.t)
    (heightMap normalMap : sampler2D) (bumpScale parralax : R) :
  Basic.normal FragUV tanEyeVec heightMap normalMap bumpScale parralax
  = Main.decodeNormal normalMap
      (Basic.texUV FragUV tanEyeVec heightMap bumpScale parralax)
  /\ Basic.tanLightVecN tanLightVec = Main.tanLightN tanLightVec
  /\ Basic.ambient = Main.ambientBase.
Proof.
  repeat split; try reflexivity.
  unfold Basic.normal, Main.decodeNormal. cbv zeta. f_equal.
  unfold V3.scale, V3.sub_scalar; simpl. f_equal; field.
Qed.

(* ================================================================== *)
(** * The colour floor of the steep shader *)

Lemma powf_nonneg (x y : R) : 0 <= powf x y.
Proof.
  unfold powf. destruct (Req_dec_T x 0); [lra|].
  unfold Rpower. left. apply exp_pos.
Qed.

Lemma specular_nonneg
    (tanEyeVec tanLightVec : V3.t) (heightMap normalMap : sampler2D)
    (bumpScale : R) (finalUV : V2.t) :
  0 <= Main.specular tanEyeVec tanLightVec heightMap normalMap bumpScale
                     finalUV.
Proof.
  unfold Main.specular, Main.boost, lerp, baseSpecularCoeff.
  pose proof (powf_nonneg (Main.hVal heightMap finalUV) (25 / 10)).
  pose proof (powf_nonneg
                (Main.NdotH tanEyeVec tanLightVec heightMap normalMap
                   bumpScale finalUV) (Main.expo heightMap finalUV)).
  nra.
Qed.

(** X18. No fragment is darker than the occluded ambient light: for an albedo
    texel without negative channels, a height in [0, 1], nonzero eye and
    light vectors, a light that is not opposite to the eye and normals
    that do not cancel, every channel of the colour is at least
    [albedo * ambientBase * aoMin]. *)
Theorem color_ambient_floor
    (tanEyeVec tanLightVec : V3.t)
    (diffuseTexture heightMap normalMap : sampler2D)
    (selfShadowTest bumpScale : R) (finalUV : V2.t)
    (Halbedo : 0 <= V4.r (texture diffuseTexture finalUV)
               /\ 0 <= V4.g (texture diffuseTexture finalUV)
               /\ 0 <= V4.b (texture diffuseTexture finalUV))
    (Hh : 0 <= V4.r (texture heightMap finalUV) <= 1)
    (Heye : V3.dot tanEyeVec tanEyeVec <> 0)
    (Hlight : V3.dot tanLightVec tanLightVec <> 0)
    (Hhalf : V3.add (Main.tanLightN tanLightVec) (Main.tanEyeN tanEyeVec)
             <> V3.mk 0 0 0)
    (Hblend : V3.add (Main.nM normalMap finalUV)
                     (Main.nH heightMap bumpScale finalUV) <> V3.mk 0 0 0) :
  let color := Main.color tanEyeVec tanLightVec diffuseTexture heightMap
                          normalMap selfShadowTest bumpScale finalUV in
  V4.r (texture diffuseTexture finalUV) * (56 / 100) * aoMin <= V3.x color
  /\ V4.g (texture diffuseTexture finalUV) * (56 / 100) * aoMin <= V3.y color
  /\ V4.b (texture diffuseTexture finalUV) * (84 / 100) * aoMin <= V3.z color.
Proof.
  destruct Halbedo as (Hr & Hg & Hb).
  assert (HN : V3.dot (Main.N heightMap normalMap bumpScale finalUV)
                      (Main.N heightMap normalMap bumpScale finalUV) = 1).
  { unfold Main.N. rewrite normalize_mix_half by exact Hblend.
    apply normalize_unit, nonzero_dot, Hblend. }
  pose proof (ao_bound_of_unit heightMap normalMap finalUV _ HN) as Hao.
  fold (Main.ao heightMap normalMap bumpScale finalUV) in Hao.
  pose proof (shadow_range tanLightVec heightMap normalMap selfShadowTest
                bumpScale finalUV) as Hsh.
  pose proof (specular_nonneg tanEyeVec tanLightVec heightMap normalMap
                bumpScale finalUV) as Hsp.
  assert (Hl : 0 <= Main.NdotL tanLightVec heightMap normalMap bumpScale
                      finalUV) by (unfold Main.NdotL; apply Rmax_r).
  cbv zeta. unfold Main.color, Main.composite, Main.albedo.
  set (ao := Main.ao _ _ _ _) in *.
  set (sh := Main.shadow _ _ _ _ _ _) in *.
  set (sp := Main.specular _ _ _ _ _ _) in *.
  set (nl := Main.NdotL _ _ _ _ _) in *.
  unfold V3.add, V3.mul, V3.scale, V4.rgb, Main.ambientBase, Main.lightColor,
    diffuseCoeff, aoMin, shadowMin in *; simpl.
  assert (Hsh0 : 0 <= sh) by lra.
  assert (Hd : 0 <= nl * sh) by nra.
  assert (Hs : 0 <= sp * sh) by nra.
  repeat split; nra.
Qed.

Lemma color_ambient_floor_witness :
  1 * (56 / 100) * aoMin
  <= V3.x (Main.color faceOn lightFromSide (constSampler (grey 1))
             (constSampler (grey (1 / 2))) flatNormalMap 1 1 origin).
Proof.
  apply (color_ambient_floor faceOn lightFromSide (constSampler (grey 1))
           (constSampler (grey (1 / 2))) flatNormalMap 1 1 origin).
  - simpl. lra.
  - simpl. lra.
  - unfold V3.dot; simpl. lra.
  - unfold V3.dot; simpl. lra.
  - rewrite tanLightN_lightFromSide, tanEyeN_faceOn.
    unfold V3.add, faceOn; simpl. intros H. injection H. intros. lra.
  - apply flat_blend_nonzero.
Defined.

(* ================================================================== *)
(** * [parallaxTrace] on floats with infinities and NaN *)

(** ** Arithmetic on real operands *)

Lemma ext_div_fin (x y : R) :
  y <> 0 -> Ext.div (Ext.Fin x) (Ext.Fin y) = Ext.Fin (x / y).
Proof. intros H. simpl. destruct (Req_dec_T y 0); [contradiction | auto]. Qed.

Lemma ext_div_neg_zero (x y : R) :
  x < 0 -> y = 0 -> Ext.div (Ext.Fin x) (Ext.Fin y) = Ext.NInf.
Proof.
  intros Hx Hy. simpl. destruct (Req_dec_T y 0); [|contradiction].
  destruct (Rlt_dec 0 x); [lra|]. destruct (Rlt_dec x 0); [auto | lra].
Qed.


Lemma ext_lt_fin (x y : R) : Ext.lt (Ext.Fin x) (Ext.Fin y) = ltb x y.
Proof. reflexivity. Qed.

(** Clamping a real number, or minus infinity, to [0, 1]. *)
Lemma ext_clamp_fin (q : R) :
  Ext.clamp (Ext.Fin q) (Ext.Fin 0) (Ext.Fin 1) = Ext.Fin (clamp q 0 1).
Proof.
  unfold Ext.clamp, Ext.max, Ext.min. rewrite ext_lt_fin.
  destruct (Rlt_dec q 0) as [Hq | Hq].
  - assert (H1 : ltb q 0 = true) by now apply ltb_true.
    assert (H2 : ltb 1 0 = false) by (apply ltb_false; lra).
    rewrite H1, ext_lt_fin, H2. f_equal. symmetry. apply clamp_below; lra.
  - assert (H1 : ltb q 0 = false) by (apply ltb_false; lra).
    rewrite H1, ext_lt_fin.
    destruct (Rlt_dec 1 q) as [Hq1 | Hq1].
    + assert (H2 : ltb 1 q = true) by now apply ltb_true.
      rewrite H2. f_equal. symmetry. apply clamp_above; lra.
    + assert (H2 : ltb 1 q = false) by (apply ltb_false; lra).
      rewrite H2. f_equal. unfold clamp, Rmin, Rmax.
      destruct (Rle_dec q 0); destruct (Rle_dec _ 1); lra.
Qed.

Lemma ext_clamp_ninf :
  Ext.clamp Ext.NInf (Ext.Fin 0) (Ext.Fin 1) = Ext.Fin 0.
Proof.
  assert (H2 : ltb 1 0 = false) by (apply ltb_false; lra).
  unfold Ext.clamp, Ext.max, Ext.min.
  change (Ext.lt Ext.NInf (Ext.Fin 0)) with true. cbv iota.
  now rewrite ext_lt_fin, H2.
Qed.

Lemma ext_mix_fin (x y a : R) :
  Ext.mix (Ext.Fin x) (Ext.Fin y) (Ext.Fin a) = Ext.Fin (mix x y a).
Proof. unfold Ext.mix, mix. simpl. f_equal; ring. Qed.

Lemma ext_mix2_fin (p q : V2.t) (a : R) :
  Ext.mix2 (Ext.of_V2 p) (Ext.of_V2 q) (Ext.Fin a)
  = Ext.of_V2 (V2.mix p q a).
Proof.
  unfold Ext.mix2, Ext.of_V2, V2.mix; simpl. now rewrite !ext_mix_fin.
Qed.

Lemma ext_add2_fin (p q : V2.t) :
  Ext.add2 (Ext.of_V2 p) (Ext.of_V2 q) = Ext.of_V2 (V2.add p q).
Proof. reflexivity. Qed.

(** ** The step sizes for a view direction of real numbers *)

Lemma ext_numSteps (v : V3.t) :
  Ext.numSteps (Ext.of_V3 v) = Ext.Fin (numSteps v).
Proof.
  unfold Ext.numSteps, numSteps. simpl Ext.abs. apply ext_mix_fin.
Qed.

Lemma ext_deltaH (v : V3.t) :
  Rabs (V3.z v) <= 1 -> Ext.deltaH (Ext.of_V3 v) = Ext.Fin (deltaH v).
Proof.
  intros Hz. unfold Ext.deltaH, deltaH. rewrite ext_numSteps.
  apply ext_div_fin. pose proof (numSteps_range v Hz). lra.
Qed.

Lemma ext_deltaUV (v : V3.t) (b : R) :
  Rabs (V3.z v) <= 1 -> V3.z v <> 0 ->
  Ext.deltaUV (Ext.of_V3 v) (Ext.Fin b) = Ext.of_V2 (deltaUV v b).
Proof.
  intros Hz Hnz. unfold Ext.deltaUV. rewrite ext_numSteps. simpl.
  assert (Hd : Rabs (V3.z v) * numSteps v <> 0).
  { pose proof (numSteps_range v Hz). pose proof (Rabs_pos_lt _ Hnz). nra. }
  destruct (Req_dec_T (Rabs (V3.z v) * numSteps v) 0); [contradiction|].
  reflexivity.
Qed.

(** ** Termination and the state at the exit *)

Section ExtLoop.
Variable heightMap : Ext.xvec2 -> R.
Variable viewDir : Ext.xvec3.
Variable bumpScale : Ext.xfloat.
Variable dH : R.
Hypothesis deltaH_is : Ext.deltaH viewDir = Ext.Fin dH.
(** a further property of the state that the body keeps *)
Variable P : Ext.TraceState -> Prop.
Hypothesis P_body :
  forall s, P s -> P (Ext.traceBody heightMap viewDir bumpScale s).

Lemma ext_traceCond_true (s : Ext.TraceState) (h c : R) :
  Ext.heightRem s = Ext.Fin h -> Ext.curSample s = Ext.Fin c ->
  (Ext.traceCond s = true <-> 0 < h /\ c < h).
Proof.
  intros Hh Hc. unfold Ext.traceCond. rewrite Hh, Hc, !ext_lt_fin.
  rewrite andb_true_iff, !ltb_true. tauto.
Qed.

Lemma ext_body_scalars (s : Ext.TraceState) (h : R) :
  Ext.scalars_ok dH s -> Ext.heightRem s = Ext.Fin h ->
  Ext.traceCond s = true ->
  Ext.scalars_ok dH (Ext.traceBody heightMap viewDir bumpScale s)
  /\ Ext.heightRem (Ext.traceBody heightMap viewDir bumpScale s)
     = Ext.Fin (h - dH).
Proof.
  intros (h' & p & c & Hh & Hp & Hc & Hlt) Hh' Hcond.
  rewrite Hh in Hh'. injection Hh' as ->.
  apply (ext_traceCond_true s h c Hh Hc) in Hcond.
  assert (Hr : Ext.heightRem (Ext.traceBody heightMap viewDir bumpScale s)
               = Ext.Fin (h - dH)).
  { simpl. rewrite Hh, deltaH_is. reflexivity. }
  split; [|exact Hr].
  exists (h - dH), c, (heightMap (Ext.add2 (Ext.curUV s)
                                   (Ext.deltaUV viewDir bumpScale))).
  repeat split; auto. lra.
Qed.

Lemma ext_traceLoop_bounded (k : nat) :
  forall (fuel : nat) (s : Ext.TraceState) (h : R),
    (k <= fuel)%nat ->
    Ext.scalars_ok dH s -> P s ->
    Ext.heightRem s = Ext.Fin h -> h <= INR k * dH ->
    exists s',
      Ext.traceLoop heightMap viewDir bumpScale fuel s = Some s'
      /\ Ext.scalars_ok dH s' /\ P s'.
Proof.
  induction k as [|k IH]; intros fuel s h Hf Hok HP Hh Hle.
  - assert (Hc : Ext.traceCond s = false).
    { destruct Hok as (h' & p & c & Hh2 & Hp & Hc & Hlt).
      destruct (Ext.traceCond s) eqn:E; auto.
      apply (ext_traceCond_true s h' c Hh2 Hc) in E.
      rewrite Hh in Hh2. injection Hh2 as <-. simpl in Hle. lra. }
    exists s. destruct fuel; simpl; rewrite Hc; auto.
  - destruct (Ext.traceCond s) eqn:Hc.
    + destruct fuel as [|fuel]; [inversion Hf|].
      destruct (ext_body_scalars s h Hok Hh Hc) as [Hok' Hh'].
      destruct (IH fuel (Ext.traceBody heightMap viewDir bumpScale s)
                  (h - dH)) as (s' & Hl & Hs');
        auto; try (apply le_S_n, Hf).
      * rewrite S_INR in Hle. lra.
      * exists s'. simpl. rewrite Hc. auto.
    + exists s. destruct fuel; simpl; rewrite Hc; auto.
Qed.

(** In a state whose scalars are real numbers with the previous sample
    under the previous ray height, [beforeDepth] is negative, the
    division gives a real number or minus infinity, never NaN, and the
    weight is a real number in [0, 1]. *)
Lemma ext_weight_range (s : Ext.TraceState) :
  Ext.scalars_ok dH s ->
  exists b a t : R,
    Ext.beforeDepth viewDir s = Ext.Fin b
    /\ Ext.afterDepth s = Ext.Fin a
    /\ b < 0
    /\ Ext.traceWeight viewDir s = Ext.Fin t
    /\ 0 <= t <= 1
    /\ (b + a = 0 -> t = 0).
Proof.
  intros (h & p & c & Hh & Hp & Hc & Hlt).
  unfold Ext.traceWeight, Ext.beforeDepth, Ext.afterDepth.
  rewrite Hh, Hp, Hc, deltaH_is. simpl Ext.add. simpl Ext.sub.
  set (b := p + - (h + dH)). set (a := c + - h).
  assert (Hb : b < 0) by (unfold b; lra).
  destruct (Req_dec (b + a) 0) as [H0 | Hn].
  - rewrite (ext_div_neg_zero b (b + a) Hb H0), ext_clamp_ninf.
    exists b, a, 0. repeat split; auto; lra.
  - rewrite (ext_div_fin b (b + a) Hn), ext_clamp_fin.
    exists b, a, (clamp (b / (b + a)) 0 1). repeat split; auto;
      try (apply clamp_range; lra). intros; contradiction.
Qed.
End ExtLoop.

Lemma ext_init_scalars
    (heightMap : Ext.xvec2 -> R) (uv g : Ext.xvec2) (dH : R) :
  0 < dH -> Ext.scalars_ok dH (Ext.traceInit heightMap uv g).
Proof.
  intros Hd. exists 1, 1, (heightMap uv). simpl. repeat split; auto. lra.
Qed.

Lemma seventy_three_steps (v : V3.t) :
  Rabs (V3.z v) <= 1 -> 1 <= INR 73 * deltaH v.
Proof.
  intros Hz. pose proof (numSteps_range v Hz).
  unfold deltaH. replace (INR 73) with 73 by (simpl; ring).
  apply Rmult_le_reg_r with (r := numSteps v); [lra|].
  field_simplify; lra.
Qed.

(** ** A first sample of 1.0: no iteration, and the unassigned [prevUV] *)

Lemma ext_mix_weight_one (g : Ext.xfloat) (y : R) :
  Ext.mix g (Ext.Fin y) (Ext.Fin 1)
  = match g with Ext.Fin _ => Ext.Fin y | _ => Ext.NaN end.
Proof.
  unfold Ext.mix. destruct g; simpl; unfold Ext.scale_inf;
    repeat (destruct (Rlt_dec _ _); try lra); auto.
  f_equal; ring.
Qed.

Lemma ext_init_max
    (heightMap : Ext.xvec2 -> R) (uv : Ext.xvec2) (viewDir : V3.t)
    (bumpScale : Ext.xfloat) (g : Ext.xvec2) (fuel : nat) :
  Rabs (V3.z viewDir) <= 1 ->
  heightMap uv = 1 ->
  Ext.traceCond (Ext.traceInit heightMap uv g) = false
  /\ Ext.traceWeight (Ext.of_V3 viewDir) (Ext.traceInit heightMap uv g)
     = Ext.Fin 1
  /\ Ext.parallaxTrace heightMap uv (Ext.of_V3 viewDir) bumpScale g fuel
     = Some (Ext.mix2 g uv (Ext.Fin 1)).
Proof.
  intros Hz Hmax.
  pose proof (deltaH_pos viewDir Hz) as Hd.
  assert (Hc : Ext.traceCond (Ext.traceInit heightMap uv g) = false).
  { unfold Ext.traceCond; simpl Ext.heightRem; simpl Ext.curSample.
    rewrite Hmax, !ext_lt_fin.
    assert (H : ltb 1 1 = false) by (apply ltb_false; lra).
    rewrite H. apply andb_false_r. }
  assert (Hw : Ext.traceWeight (Ext.of_V3 viewDir)
                 (Ext.traceInit heightMap uv g) = Ext.Fin 1).
  { unfold Ext.traceWeight, Ext.beforeDepth, Ext.afterDepth.
    rewrite (ext_deltaH viewDir Hz).
    cbn [Ext.traceInit Ext.heightRem Ext.prevSample Ext.curSample
         Ext.sub Ext.add Ext.neg].
    rewrite Hmax.
    set (b := 1 + - (1 + deltaH viewDir)).
    assert (Hb : b + (1 + - 1) <> 0) by (unfold b; lra).
    rewrite (ext_div_fin _ _ Hb), ext_clamp_fin. f_equal.
    apply clamp_above; [lra|].
    replace (b / (b + (1 + - 1))) with 1 by (field; unfold b; lra). lra. }
  split; [exact Hc|]. split; [exact Hw|].
  unfold Ext.parallaxTrace.
  assert (Hl : Ext.traceLoop heightMap (Ext.of_V3 viewDir) bumpScale fuel
                 (Ext.traceInit heightMap uv g)
               = Some (Ext.traceInit heightMap uv g)).
  { destruct fuel; simpl; rewrite Hc; reflexivity. }
  rewrite Hl. cbn [option_map]. unfold Ext.traceFinish. rewrite Hw.
  reflexivity.
Qed.

Lemma ext_mix2_weight_one_finite (g : Ext.xvec2) (uv : V2.t) :
  Ext.finite2 g -> Ext.mix2 g (Ext.of_V2 uv) (Ext.Fin 1) = Ext.of_V2 uv.
Proof.
  intros [q ->]. unfold Ext.mix2, Ext.of_V2; simpl Ext.x2; simpl Ext.y2.
  now rewrite !ext_mix_weight_one.
Qed.

Lemma ext_mix2_weight_one_only_finite (g : Ext.xvec2) (uv : V2.t) :
  Ext.mix2 g (Ext.of_V2 uv) (Ext.Fin 1) = Ext.of_V2 uv -> Ext.finite2 g.
Proof.
  destruct g as [gx gy]. unfold Ext.mix2, Ext.of_V2.
  simpl Ext.x2; simpl Ext.y2. rewrite !ext_mix_weight_one.
  intros H. injection H as Hx Hy.
  destruct gx as [x| | |]; try discriminate.
  destruct gy as [y| | |]; try discriminate.
  now exists (V2.mk x y).
Qed.

(** ** A first sample below 1.0: the loop body runs *)

Lemma ext_enter (heightMap : Ext.xvec2 -> R) (uv g : Ext.xvec2) :
  heightMap uv < 1 ->
  Ext.traceCond (Ext.traceInit heightMap uv g) = true.
Proof.
  intros Hlt. unfold Ext.traceCond. simpl Ext.heightRem. simpl Ext.curSample.
  rewrite !ext_lt_fin. apply andb_true_iff. split; apply ltb_true; lra.
Qed.

Lemma ext_body_init_ignores_prevUV
    (heightMap : Ext.xvec2 -> R) (uv : Ext.xvec2) (viewDir : Ext.xvec3)
    (bumpScale : Ext.xfloat) (g1 g2 : Ext.xvec2) :
  Ext.traceBody heightMap viewDir bumpScale (Ext.traceInit heightMap uv g1)
  = Ext.traceBody heightMap viewDir bumpScale (Ext.traceInit heightMap uv g2).
Proof. reflexivity. Qed.

(** The exit state of the loop for a real unit view direction: it is
    reached within 73 iterations and its scalars are real numbers; a
    property that holds after the first run of the body and that the
    body keeps, holds at the exit when the first sample is below 1.0. *)
Lemma ext_traceLoop_exit
    (heightMap : Ext.xvec2 -> R) (uv : Ext.xvec2) (viewDir : V3.t)
    (bumpScale : Ext.xfloat) (g : Ext.xvec2) (fuel : nat)
    (P : Ext.TraceState -> Prop) :
  Rabs (V3.z viewDir) <= 1 ->
  (73 <= fuel)%nat ->
  (forall s, P s ->
     P (Ext.traceBody heightMap (Ext.of_V3 viewDir) bumpScale s)) ->
  P (Ext.traceBody heightMap (Ext.of_V3 viewDir) bumpScale
       (Ext.traceInit heightMap uv g)) ->
  exists s',
    Ext.traceLoop heightMap (Ext.of_V3 viewDir) bumpScale fuel
      (Ext.traceInit heightMap uv g) = Some s'
    /\ Ext.scalars_ok (deltaH viewDir) s'
    /\ (heightMap uv < 1 -> P s').
Proof.
  intros Hz Hfuel Pbody HP1.
  pose proof (deltaH_pos viewDir Hz) as Hd.
  pose proof (ext_deltaH viewDir Hz) as HdH.
  pose proof (seventy_three_steps viewDir Hz) as H73.
  set (s0 := Ext.traceInit heightMap uv g) in *.
  pose proof (ext_init_scalars heightMap uv g _ Hd) as Hok0.
  fold s0 in Hok0.
  destruct (Ext.traceCond s0) eqn:Hc.
  - destruct fuel as [|fuel]; [inversion Hfuel|].
    destruct (ext_body_scalars heightMap (Ext.of_V3 viewDir)
                bumpScale (deltaH viewDir) HdH s0 1 Hok0
                eq_refl Hc) as [Hok1 Hh1].
    destruct (ext_traceLoop_bounded heightMap (Ext.of_V3 viewDir)
                bumpScale (deltaH viewDir) HdH P Pbody
                72 fuel _ (1 - deltaH viewDir)
                (le_S_n _ _ Hfuel) Hok1 HP1 Hh1)
      as (s' & Hl & Hok & HP).
    { replace (INR 73) with (INR 72 + 1) in H73 by (simpl; ring). lra. }
    exists s'. simpl. rewrite Hc. auto.
  - exists s0. split; [destruct fuel; simpl; rewrite Hc; reflexivity|].
    split; [exact Hok0|]. intros Hlt.
    pose proof (ext_enter heightMap uv g Hlt) as He.
    fold s0 in He. congruence.
Qed.




(** ** The unassigned [prevUV] at a first sample of 1.0 *)

(** C10. When the height sampled at the starting UV is 1.0 the loop
    condition is false at entry and the weight is 1, yet the function
    returns [mix(prevUV, uv, 1.0) = prevUV * 0 + uv] with [prevUV] never
    assigned: the input UV when the variable holds real numbers, NaN in
    both components when it holds NaN.  The result is the input UV only
    if both components of the variable are real numbers. *)
Theorem parallaxTrace_max_height_reads_prevUV
    (heightMap : Ext.xvec2 -> R) (uv : V2.t) (viewDir : V3.t)
    (bumpScale : Ext.xfloat) (fuel : nat)
    (Hunit : V3.dot viewDir viewDir = 1)
    (Hmax : heightMap (Ext.of_V2 uv) = 1) :
  (forall g : Ext.xvec2,
     Ext.traceCond (Ext.traceInit heightMap (Ext.of_V2 uv) g) = false
     /\ Ext.traceWeight (Ext.of_V3 viewDir)
          (Ext.traceInit heightMap (Ext.of_V2 uv) g) = Ext.Fin 1
     /\ Ext.parallaxTrace heightMap (Ext.of_V2 uv) (Ext.of_V3 viewDir)
          bumpScale g fuel
        = Some (Ext.mix2 g (Ext.of_V2 uv) (Ext.Fin 1)))
  /\ Ext.parallaxTrace heightMap (Ext.of_V2 uv) (Ext.of_V3 viewDir)
       bumpScale (Ext.mk2 Ext.NaN Ext.NaN) fuel
     = Some (Ext.mk2 Ext.NaN Ext.NaN)
  /\ (forall g : Ext.xvec2,
        Ext.parallaxTrace heightMap (Ext.of_V2 uv) (Ext.of_V3 viewDir)
          bumpScale g fuel = Some (Ext.of_V2 uv)
        <-> Ext.finite2 g).
Proof.
  pose proof (unit_z_le_1 viewDir Hunit) as Hz.
  assert (H : forall g,
             Ext.parallaxTrace heightMap (Ext.of_V2 uv) (Ext.of_V3 viewDir)
               bumpScale g fuel
             = Some (Ext.mix2 g (Ext.of_V2 uv) (Ext.Fin 1))).
  { intros g.
    apply (ext_init_max heightMap (Ext.of_V2 uv) viewDir bumpScale g fuel
             Hz Hmax). }
  split; [|split].
  - intros g.
    apply (ext_init_max heightMap (Ext.of_V2 uv) viewDir bumpScale g fuel
             Hz Hmax).
  - rewrite H. reflexivity.
  - intros g. rewrite H. split.
    + intros E. apply (ext_mix2_weight_one_only_finite g uv). congruence.
    + intros Hg. f_equal. now apply ext_mix2_weight_one_finite.
Qed.

Lemma parallaxTrace_max_height_reads_prevUV_witness :
  Ext.parallaxTrace whiteHeight (Ext.of_V2 origin) (Ext.of_V3 faceOn)
    (Ext.Fin 1) (Ext.mk2 Ext.NaN Ext.NaN) 73
  = Some (Ext.mk2 Ext.NaN Ext.NaN).
Proof.
  apply (parallaxTrace_max_height_reads_prevUV whiteHeight origin faceOn
           (Ext.Fin 1) 73).
  - unfold V3.dot; simpl; ring.
  - reflexivity.
Defined.

(** ** Zero bump scale *)

Lemma ext_deltaUV_zero_bumpScale (viewDir : V3.t) :
  Rabs (V3.z viewDir) <= 1 -> V3.z viewDir <> 0 ->
  Ext.deltaUV (Ext.of_V3 viewDir) (Ext.Fin 0) = Ext.of_V2 (V2.mk 0 0).
Proof.
  intros Hz Hnz. rewrite (ext_deltaUV viewDir 0 Hz Hnz).
  now rewrite deltaUV_zero_bumpScale.
Qed.

(** C4. With [bumpScale = 0] and a unit view direction with nonzero
    z-component, [parallaxTrace] returns the input UV when the first
    sample is below 1.0, whatever the unassigned [prevUV] holds.  When
    the first sample is 1.0 it returns [prevUV * 0 + uv] with [prevUV]
    never assigned: NaN in both components when the variable holds NaN,
    and the input UV only if the variable holds real numbers. *)
Theorem parallaxTrace_zero_bumpScale_unassigned
    (heightMap : Ext.xvec2 -> R) (uv : V2.t) (viewDir : V3.t) (fuel : nat)
    (Hunit : V3.dot viewDir viewDir = 1)
    (Hz : V3.z viewDir <> 0)
    (Hfuel : (73 <= fuel)%nat) :
  (heightMap (Ext.of_V2 uv) < 1 ->
   forall g : Ext.xvec2,
     Ext.parallaxTrace heightMap (Ext.of_V2 uv) (Ext.of_V3 viewDir)
       (Ext.Fin 0) g fuel = Some (Ext.of_V2 uv))
  /\ (heightMap (Ext.of_V2 uv) = 1 ->
      Ext.parallaxTrace heightMap (Ext.of_V2 uv) (Ext.of_V3 viewDir)
        (Ext.Fin 0) (Ext.mk2 Ext.NaN Ext.NaN) fuel
      = Some (Ext.mk2 Ext.NaN Ext.NaN)
      /\ forall g : Ext.xvec2,
           Ext.parallaxTrace heightMap (Ext.of_V2 uv) (Ext.of_V3 viewDir)
             (Ext.Fin 0) g fuel = Some (Ext.of_V2 uv)
           -> Ext.finite2 g).
Proof.
  pose proof (unit_z_le_1 viewDir Hunit) as Hz1.
  pose proof (ext_deltaUV_zero_bumpScale viewDir Hz1 Hz) as Hdelta.
  split.
  - intros Hlt g.
    set (P := fun s : Ext.TraceState =>
                Ext.prevUV s = Ext.of_V2 uv /\ Ext.curUV s = Ext.of_V2 uv).
    assert (Hstay : Ext.add2 (Ext.of_V2 uv)
                      (Ext.deltaUV (Ext.of_V3 viewDir) (Ext.Fin 0))
                    = Ext.of_V2 uv).
    { now rewrite Hdelta, ext_add2_fin, V2_add_zero. }
    assert (Pbody : forall s, P s ->
              P (Ext.traceBody heightMap (Ext.of_V3 viewDir) (Ext.Fin 0) s)).
    { intros s [_ Hc]. split; simpl; [exact Hc | now rewrite Hc]. }
    assert (HP1 : P (Ext.traceBody heightMap (Ext.of_V3 viewDir) (Ext.Fin 0)
                       (Ext.traceInit heightMap (Ext.of_V2 uv) g))).
    { split; simpl; [reflexivity | exact Hstay]. }
    destruct (ext_traceLoop_exit heightMap (Ext.of_V2 uv) viewDir
                (Ext.Fin 0) g fuel P Hz1 Hfuel Pbody HP1)
      as (s' & Hl & Hok & HP).
    destruct (HP Hlt) as [Hp Hc].
    destruct (ext_weight_range (Ext.of_V3 viewDir) (deltaH viewDir)
                (ext_deltaH viewDir Hz1) s' Hok)
      as (b & a & t & _ & _ & _ & Ht & _).
    unfold Ext.parallaxTrace. rewrite Hl. cbn [option_map].
    unfold Ext.traceFinish.
    now rewrite Ht, Hp, Hc, ext_mix2_fin, V2_mix_same.
  - intros Hmax.
    assert (H : forall g,
               Ext.parallaxTrace heightMap (Ext.of_V2 uv)
                 (Ext.of_V3 viewDir) (Ext.Fin 0) g fuel
               = Some (Ext.mix2 g (Ext.of_V2 uv) (Ext.Fin 1))).
    { intros g.
      apply (ext_init_max heightMap (Ext.of_V2 uv) viewDir (Ext.Fin 0) g
               fuel Hz1 Hmax). }
    split.
    + rewrite H. reflexivity.
    + intros g. rewrite H. intros E.
      apply (ext_mix2_weight_one_only_finite g uv). congruence.
Qed.

Lemma parallaxTrace_zero_bumpScale_unassigned_witness :
  Ext.parallaxTrace whiteHeight (Ext.of_V2 origin) (Ext.of_V3 faceOn)
    (Ext.Fin 0) (Ext.mk2 Ext.NaN Ext.NaN) 73
  = Some (Ext.mk2 Ext.NaN Ext.NaN).
Proof.
  assert (Hunit : V3.dot faceOn faceOn = 1) by (unfold V3.dot; simpl; ring).
  assert (Hz : V3.z faceOn <> 0) by (simpl; lra).
  apply (proj2 (parallaxTrace_zero_bumpScale_unassigned whiteHeight origin
                  faceOn 73 Hunit Hz (le_n 73))).
  reflexivity.
Defined.

(** ** The unassigned [prevUV] when the body runs *)

(** X6. When the first sample is below 1.0 the body runs and assigns
    [prevUV] before it is read: the result of [parallaxTrace] is the same
    for any two contents of the unassigned variable, NaN and the
    infinities included, for every view direction and bump scale. *)
Theorem parallaxTrace_ignores_prevUV
    (heightMap : Ext.xvec2 -> R) (uv : Ext.xvec2) (viewDir : Ext.xvec3)
    (bumpScale : Ext.xfloat) (g1 g2 : Ext.xvec2) (fuel : nat)
    (Hlt : heightMap uv < 1) :
  Ext.parallaxTrace heightMap uv viewDir bumpScale g1 fuel
  = Ext.parallaxTrace heightMap uv viewDir bumpScale g2 fuel.
Proof.
  pose proof (ext_enter heightMap uv g1 Hlt) as H1.
  pose proof (ext_enter heightMap uv g2 Hlt) as H2.
  unfold Ext.parallaxTrace.
  destruct fuel as [|fuel]; simpl; rewrite H1, H2; [reflexivity|].
  now rewrite (ext_body_init_ignores_prevUV heightMap uv viewDir bumpScale
                 g1 g2).
Qed.

Lemma parallaxTrace_ignores_prevUV_witness :
  Ext.parallaxTrace nearTop (Ext.of_V2 origin) (Ext.of_V3 faceOn)
    (Ext.Fin 1) (Ext.mk2 Ext.NaN Ext.PInf) 73
  = Ext.parallaxTrace nearTop (Ext.of_V2 origin) (Ext.of_V3 faceOn)
      (Ext.Fin 1) (Ext.of_V2 origin) 73.
Proof.
  apply parallaxTrace_ignores_prevUV. unfold nearTop. lra.
Defined.
